(** * Harbourhub: a shallow embedding of the marketplace back end

    The Django models are modelled as tables (lists of rows keyed by their
    primary key); a request handler is a function from the store (and the
    request) to the new store and its response.  Timestamps are [Z]
    (seconds); [now] is passed explicitly where the code calls
    [timezone.now()]. *)

From Stdlib Require Import List String Ascii Bool Arith Lia ZArith Permutation.
From Stdlib Require DecimalString DecimalNat DecimalFacts.
Import ListNotations.

(* ------------------------------------------------------------------------- *)
(** ** Python string operations used by the code

    A Python [str] is modelled as a [string] whose characters are code
    points U+0000 to U+00FF (an [ascii] read as its Latin-1 code point).
    Header values are always of this form (WSGI decodes them as Latin-1);
    for bodies and query strings the development covers the inputs whose
    characters lie in this range.  On it the operations below agree with
    Python's exactly. *)

Module PyStr.

(** [str.isspace()] on U+0000..U+00FF: U+0009..U+000D, U+001C..U+0020,
    U+0085 and U+00A0. *)
Definition is_space (c : ascii) : bool :=
  let n := nat_of_ascii c in
  (9 <=? n) && (n <=? 13) || (28 <=? n) && (n <=? 32) || (n =? 133) || (n =? 160).

Fixpoint lstrip (s : string) : string :=
  match s with
  | EmptyString => EmptyString
  | String c rest => if is_space c then lstrip rest else s
  end.

Definition rstrip (s : string) : string :=
  string_of_list_ascii (rev (list_ascii_of_string (lstrip
    (string_of_list_ascii (rev (list_ascii_of_string s)))))).

(** [str.strip()]: leading and trailing [is_space] characters removed. *)
Definition strip (s : string) : string := rstrip (lstrip s).

(** [str.lower()] of one character of U+0000..U+00FF: the capitals A..Z
    and U+00C0..U+00DE except U+00D7 map 32 code points up; every other
    character (U+00B5, U+00DF, U+00FF included) is its own lower case. *)
Definition lower_char (c : ascii) : ascii :=
  let n := nat_of_ascii c in
  if (65 <=? n) && (n <=? 90) || (192 <=? n) && (n <=? 222) && negb (n =? 215)
  then ascii_of_nat (n + 32) else c.

(** [str.lower()] *)
Fixpoint lower (s : string) : string :=
  match s with
  | EmptyString => EmptyString
  | String c rest => String (lower_char c) (lower rest)
  end.

Fixpoint is_prefix (p s : string) : bool :=
  match p, s with
  | EmptyString, _ => true
  | String c p', String d s' => Ascii.eqb c d && is_prefix p' s'
  | String _ _, EmptyString => false
  end.

Fixpoint contains (hay needle : string) : bool :=
  is_prefix needle hay ||
  match hay with EmptyString => false | String _ rest => contains rest needle end.

(** The [__icontains] lookup (case-insensitive substring).  PostgreSQL
    compares [UPPER] of both sides; under a UTF-8 locale of the default
    (libc) collation provider, [UPPER] maps U+0000..U+00FF one character to
    one and identifies two characters exactly when [lower_char] does, so
    comparing lower cases is the same. *)
Definition icontains (hay needle : string) : bool := contains (lower hay) (lower needle).

(** The [__iexact] lookup. *)
Definition iexact (a b : string) : bool := String.eqb (lower a) (lower b).

End PyStr.

(* ------------------------------------------------------------------------- *)
(** ** apps/listings/models.py *)

Module Listings.

Inductive Status := DRAFT | PUBLISHED | ARCHIVED | FLAGGED | SUSPENDED.

Definition Status_eqb (a b : Status) : bool :=
  match a, b with
  | DRAFT, DRAFT | PUBLISHED, PUBLISHED | ARCHIVED, ARCHIVED
  | FLAGGED, FLAGGED | SUSPENDED, SUSPENDED => true
  | _, _ => false
  end.

(** The columns of [Listing] the claims are about.  Text columns (title,
    slug, description, ...) are not modelled: no code path below reads them
    to decide anything about these columns. *)
Record Listing := mkListing {
  user : nat;
  status : Status;
  featured : bool;
  views_count : nat;
  inquiries_count : nat;
  published_at : option Z;
  expires_at : option Z
}.

(** A stored row: primary key and column values. *)
Record Row := mkRow { pk : nat; row : Listing }.

Definition Table := list Row.

(** An in-memory model instance: [pk] is [None] before the first save. *)
Record Instance := mkInstance { inst_pk : option nat; inst : Listing }.

(** Field names usable in [save(update_fields=[...])]. *)
Inductive Field :=
  f_user | f_status | f_featured | f_views_count | f_inquiries_count
| f_published_at | f_expires_at.

Definition Field_eqb (a b : Field) : bool :=
  match a, b with
  | f_user, f_user | f_status, f_status | f_featured, f_featured
  | f_views_count, f_views_count | f_inquiries_count, f_inquiries_count
  | f_published_at, f_published_at | f_expires_at, f_expires_at => true
  | _, _ => false
  end.

(** Copy column [f] of [src] into [dst]. *)
Definition write_field (f : Field) (src dst : Listing) : Listing :=
  match f with
  | f_user => mkListing (user src) (status dst) (featured dst) (views_count dst)
                (inquiries_count dst) (published_at dst) (expires_at dst)
  | f_status => mkListing (user dst) (status src) (featured dst) (views_count dst)
                (inquiries_count dst) (published_at dst) (expires_at dst)
  | f_featured => mkListing (user dst) (status dst) (featured src) (views_count dst)
                (inquiries_count dst) (published_at dst) (expires_at dst)
  | f_views_count => mkListing (user dst) (status dst) (featured dst) (views_count src)
                (inquiries_count dst) (published_at dst) (expires_at dst)
  | f_inquiries_count => mkListing (user dst) (status dst) (featured dst) (views_count dst)
                (inquiries_count src) (published_at dst) (expires_at dst)
  | f_published_at => mkListing (user dst) (status dst) (featured dst) (views_count dst)
                (inquiries_count dst) (published_at src) (expires_at dst)
  | f_expires_at => mkListing (user dst) (status dst) (featured dst) (views_count dst)
                (inquiries_count dst) (published_at dst) (expires_at src)
  end.

(** The UPDATE issued by [super().save(update_fields=uf)]: with [None] every
    column is written, otherwise only the listed ones. *)
Definition write_fields (uf : option (list Field)) (src dst : Listing) : Listing :=
  match uf with
  | None => src
  | Some fs => fold_left (fun acc f => write_field f src acc) fs dst
  end.

Definition set_featured (b : bool) (l : Listing) : Listing :=
  mkListing (user l) (status l) b (views_count l) (inquiries_count l)
    (published_at l) (expires_at l).

Definition set_status (s : Status) (l : Listing) : Listing :=
  mkListing (user l) s (featured l) (views_count l) (inquiries_count l)
    (published_at l) (expires_at l).

Definition set_published_at (t : option Z) (l : Listing) : Listing :=
  mkListing (user l) (status l) (featured l) (views_count l) (inquiries_count l)
    t (expires_at l).

Definition set_expires_at (t : option Z) (l : Listing) : Listing :=
  mkListing (user l) (status l) (featured l) (views_count l) (inquiries_count l)
    (published_at l) t.

(** [.exclude(pk=excl)]; [exclude(pk=None)] excludes no row. *)
Definition excluded (excl : option nat) (p : nat) : bool :=
  match excl with Some q => p =? q | None => false end.

(** [Listing.objects.filter(user=u, featured=True).exclude(pk=excl)
       .update(featured=False)] *)
Definition unfeature_others (db : Table) (u : nat) (excl : option nat) : Table :=
  map (fun r =>
         if (user (row r) =? u) && featured (row r) && negb (excluded excl (pk r))
         then mkRow (pk r) (set_featured false (row r))
         else r) db.

(** [_unset_other_featured_for_user(user, exclude_pk)] of
    listings/serializers.py: [if exclude_pk:] is Python truthiness, so a
    primary key 0 excludes nothing. *)
Definition unset_other_featured_for_user (db : Table) (u : nat) (exclude_pk : option nat)
  : Table :=
  let excl := match exclude_pk with
              | Some q => if q =? 0 then None else Some q
              | None => None
              end in
  unfeature_others db u excl.

(** Python truthiness of a nullable datetime column. *)
Definition is_set {A} (o : option A) : bool := match o with Some _ => true | None => false end.

(** The next value of the primary-key sequence. *)
Definition next_pk (db : Table) : nat := S (fold_right Nat.max 0 (map pk db)).

Definition has_pk (db : Table) (p : nat) : bool := existsb (fun r => pk r =? p) db.

Definition update_row (db : Table) (p : nat) (f : Listing -> Listing) : Table :=
  map (fun r => if pk r =? p then mkRow p (f (row r)) else r) db.

(** Outcome of [Model.save]: the new store and the saved primary key (if a
    row was written), or the store when the save raised after the custom
    part of [save] had already issued its UPDATE. *)
Inductive SaveResult :=
| SaveOk (db : Table) (saved : option nat)
| SaveErr (db : Table).

Definition result_db (r : SaveResult) : Table :=
  match r with SaveOk db _ => db | SaveErr db => db end.

(** [Listing.save(update_fields=uf)] at time [now] (slug generation is not
    modelled: it only writes the slug column).  Django's own [save]:
    an instance without pk is INSERTed (with [update_fields] it raises);
    an empty [update_fields] returns without a query; otherwise the row is
    UPDATEd, and if no row has that pk a full save INSERTs it while a save
    with [update_fields] raises. *)
Definition stamp_published (now : Z) (l : Listing) : Listing :=
  if Status_eqb (status l) PUBLISHED && negb (is_set (published_at l))
  then set_published_at (Some now) l else l.

Definition save (now : Z) (db : Table) (i : Instance) (uf : option (list Field))
  : SaveResult :=
  let l1 := stamp_published now (inst i) in
  let db1 := if featured l1 then unfeature_others db (user l1) (inst_pk i) else db in
  match uf with
  | Some [] => SaveOk db1 None
  | _ =>
    match inst_pk i with
    | None =>
        match uf with
        | None => let p := next_pk db1 in SaveOk (db1 ++ [mkRow p l1]) (Some p)
        | Some _ => SaveErr db1
        end
    | Some p =>
        if has_pk db1 p then SaveOk (update_row db1 p (write_fields uf l1)) (Some p)
        else match uf with
             | None => SaveOk (db1 ++ [mkRow p l1]) (Some p)
             | Some _ => SaveErr db1
             end
    end
  end.

(** [Listing.objects.get(pk=p)] *)
Definition find_row (db : Table) (p : nat) : option Listing :=
  match find (fun r => pk r =? p) db with Some r => Some (row r) | None => None end.

(** The right-hand side of a counter [.update(col=...)]: an [F()] expression
    evaluated by the store against the current column value, or a value
    the application computed. *)
Inductive Expr := F_plus (delta : nat) | Value (v : nat).

Definition eval_expr (e : Expr) (old : nat) : nat :=
  match e with F_plus d => old + d | Value v => v end.

(** [Listing.objects.filter(pk=p).update(views_count=e)] *)
Definition update_views_count (db : Table) (p : nat) (e : Expr) : Table :=
  map (fun r => if pk r =? p then
                  mkRow (pk r) (mkListing (user (row r)) (status (row r)) (featured (row r))
                                  (eval_expr e (views_count (row r))) (inquiries_count (row r))
                                  (published_at (row r)) (expires_at (row r)))
                else r) db.

(** The UPDATE issued by [increment_views]: [F("views_count") + 1]. *)
Definition increment_views_expr : Expr := F_plus 1.

Definition increment_views (db : Table) (p : nat) : Table :=
  update_views_count db p increment_views_expr.

(** [increment_inquiries]: the same relative UPDATE on [inquiries_count]. *)
Definition increment_inquiries (db : Table) (p : nat) : Table :=
  map (fun r => if pk r =? p then
                  mkRow (pk r) (mkListing (user (row r)) (status (row r)) (featured (row r))
                                  (views_count (row r)) (inquiries_count (row r) + 1)
                                  (published_at (row r)) (expires_at (row r)))
                else r) db.

(* ------------------------------------------------------------------------- *)
(** ** apps/listings/tasks.py: [expire_listings_task] *)

(** [filter(expires_at__lte=now, status=PUBLISHED)]; a NULL [expires_at]
    never satisfies [__lte]. *)
Definition expired_published (now : Z) (l : Listing) : bool :=
  match expires_at l with
  | Some t => (t <=? now)%Z && Status_eqb (status l) PUBLISHED
  | None => false
  end.

(** [qs.update(status=ARCHIVED)] returns the number of matched rows. *)
Definition expire_listings_task (now : Z) (db : Table) : Table * nat :=
  (map (fun r => if expired_published now (row r)
                 then mkRow (pk r) (set_status ARCHIVED (row r)) else r) db,
   List.length (filter (fun r => expired_published now (row r)) db)).

(* ------------------------------------------------------------------------- *)
(** ** apps/listings/serializers.py *)

(** The validated data of a listing write that touches the modelled
    columns: [status], [featured], [expires_at] ([None]: key absent). *)
Record Attrs := mkAttrs {
  a_status : option Status;
  a_featured : option bool;
  a_expires_at : option (option Z)
}.

(** [for attr, value in validated_data.items(): setattr(instance, attr, value)] *)
Definition setattrs (a : Attrs) (l : Listing) : Listing :=
  let l1 := match a_status a with Some s => set_status s l | None => l end in
  let l2 := match a_featured a with Some b => set_featured b l1 | None => l1 end in
  match a_expires_at a with Some t => set_expires_at t l2 | None => l2 end.

(** Column defaults of a new [Listing]. *)
Definition new_listing (owner : nat) : Listing :=
  mkListing owner DRAFT false 0 0 None None.

(** [ListingCreateUpdateSerializer.create] (inside [transaction.atomic]: a
    raised error restores the store).  Returns the store and the pk. *)
Definition serializer_create (now : Z) (db : Table) (owner : nat) (a : Attrs)
  : Table * option nat :=
  let featured_flag := match a_featured a with Some b => b | None => false end in
  let l0 := setattrs (mkAttrs (a_status a) None (a_expires_at a)) (new_listing owner) in
  match save now db (mkInstance None l0) None with
  | SaveOk db1 (Some p) =>
      if featured_flag then
        let l1 := set_featured true (stamp_published now l0) in
        match save now db1 (mkInstance (Some p) l1) (Some [f_featured]) with
        | SaveOk db2 _ => (unset_other_featured_for_user db2 owner (Some p), Some p)
        | SaveErr _ => (db, None)
        end
      else (db1, Some p)
  | _ => (db, None)
  end.

(** [ListingCreateUpdateSerializer.update] on the instance [get_object]
    loaded (pk [p]; an unknown pk is a 404 and changes nothing). *)
Definition serializer_update (now : Z) (db : Table) (p : nat) (a : Attrs)
  : Table * option nat :=
  match find_row db p with
  | None => (db, None)
  | Some l =>
      let l' := setattrs a l in
      match save now db (mkInstance (Some p) l') None with
      | SaveOk db1 _ =>
          (if match a_featured a with Some b => b | None => false end
           then unset_other_featured_for_user db1 (user l') (Some p) else db1, Some p)
      | SaveErr _ => (db, None)
      end
  end.

(** [ListingStatusUpdateSerializer.update]: fields [status] and [featured]
    (the audit-log entry it writes is not a listing column). *)
Definition status_serializer_update (now : Z) (db : Table) (p : nat) (a : Attrs)
  : Table * option nat :=
  serializer_update now db p (mkAttrs (a_status a) (a_featured a) None).

(** A view or task that loads the listing, assigns attributes and calls
    [save(update_fields=uf)] outside a transaction ([publish], [archive],
    [expire_if_needed], ...). *)
Definition load_and_save (now : Z) (db : Table) (p : nat) (a : Attrs)
  (uf : option (list Field)) : Table * option nat :=
  match find_row db p with
  | None => (db, None)
  | Some l =>
      match save now db (mkInstance (Some p) (setattrs a l)) uf with
      | SaveOk db1 _ => (db1, Some p)
      | SaveErr db1 => (db1, None)
      end
  end.

Inductive Op :=
| OpCreate (owner : nat) (a : Attrs)
| OpUpdate (p : nat) (a : Attrs)
| OpStatusUpdate (p : nat) (a : Attrs)
| OpSave (p : nat) (a : Attrs) (uf : option (list Field))
| OpIncrementViews (p : nat)
| OpIncrementInquiries (p : nat)
| OpExpire.

Definition step (now : Z) (db : Table) (o : Op) : Table :=
  match o with
  | OpCreate owner a => fst (serializer_create now db owner a)
  | OpUpdate p a => fst (serializer_update now db p a)
  | OpStatusUpdate p a => fst (status_serializer_update now db p a)
  | OpSave p a uf => fst (load_and_save now db p a uf)
  | OpIncrementViews p => increment_views db p
  | OpIncrementInquiries p => increment_inquiries db p
  | OpExpire => fst (expire_listings_task now db)
  end.

Fixpoint run (db : Table) (trace : list (Z * Op)) : Table :=
  match trace with
  | [] => db
  | (now, o) :: rest => run (step now db o) rest
  end.

(** Invariants of the listing table. *)
Definition pks_unique (db : Table) : Prop := NoDup (map pk db).

Definition single_featured (db : Table) : Prop :=
  forall r1 r2, In r1 db -> In r2 db ->
    user (row r1) = user (row r2) ->
    featured (row r1) = true -> featured (row r2) = true -> pk r1 = pk r2.

Definition listing_inv (db : Table) : Prop := pks_unique db /\ single_featured db.

(** Validated data publishing and featuring a listing. *)
Definition featured_on : Attrs := mkAttrs (Some PUBLISHED) (Some true) None.

(** The in-memory owner of a saved instance is the stored owner of its row. *)
Definition owner_matches (db : Table) (i : Instance) : Prop :=
  forall r, In r db -> inst_pk i = Some (pk r) -> user (row r) = user (inst i).

(** Sample data: a published listing of user 2 with 41 views. *)
Definition shown_listing : Listing := mkListing 2 PUBLISHED false 41 0 (Some 1%Z) None.

(** The per-row effect of the bulk update of [expire_listings_task]. *)
Definition archive_step (now : Z) (r : Row) : Row :=
  if expired_published now (row r) then mkRow (pk r) (set_status ARCHIVED (row r)) else r.

(** Sample data: listings with past, future and no expiry. *)
Definition expiring_table : Table :=
  [mkRow 1 (mkListing 3 PUBLISHED false 0 0 (Some 0%Z) (Some 5%Z));
   mkRow 2 (mkListing 3 PUBLISHED true 0 0 (Some 0%Z) (Some 20%Z));
   mkRow 3 (mkListing 4 DRAFT false 0 0 None (Some 2%Z));
   mkRow 4 (mkListing 4 PUBLISHED false 0 0 (Some 0%Z) None)].

End Listings.

(* ------------------------------------------------------------------------- *)
(** ** apps/listings/views.py: [ListingViewSet.retrieve] *)

Module ListingViews.
Import Listings.

(** A [record_listing_view_task.delay(listing_id=..., user_id=...)] job. *)
Record ViewJob := mkViewJob { job_listing_id : nat; job_user_id : option nat }.

(** The store seen by the view: the listing table, the task queue, and the
    log of views-count UPDATE statements issued (pk and right-hand side). *)
Record Store := mkStore {
  listings : Table;
  jobs : list ViewJob;
  views_updates : list (nat * Expr)
}.

Inductive Response := Ok200 (l : Listing) | NotFound404.

(** [Listing.increment_views] on the store: one UPDATE statement. *)
Definition increment_views_st (st : Store) (p : nat) : Store :=
  mkStore (update_views_count (listings st) p increment_views_expr) (jobs st)
    (views_updates st ++ [(p, increment_views_expr)]).

(** [get_queryset] for [retrieve]: published listings, or the requester's own. *)
Definition retrieve_visible (requester : option nat) (l : Listing) : bool :=
  Status_eqb (status l) PUBLISHED ||
  match requester with Some u => user l =? u | None => false end.

Definition set_views_count (v : nat) (l : Listing) : Listing :=
  mkListing (user l) (status l) (featured l) v (inquiries_count l)
    (published_at l) (expires_at l).

(** [refresh_from_db(fields=['views_count'])] *)
Definition refresh_views (st : Store) (p : nat) (l : Listing) : Listing :=
  match find_row (listings st) p with
  | Some l2 => set_views_count (views_count l2) l
  | None => l
  end.

(** [retrieve] for requester [requester] ([None]: anonymous) and pk [p],
    on the path where the store and the broker accept the statements. *)
Definition retrieve (st : Store) (requester : option nat) (p : nat) : Store * Response :=
  match find_row (listings st) p with
  | None => (st, NotFound404)
  | Some l =>
      if negb (retrieve_visible requester l) then (st, NotFound404)
      else if Status_eqb (status l) PUBLISHED then
        let st1 := increment_views_st st p in
        let l1 := refresh_views st1 p l in
        let st2 := mkStore (listings st1) (jobs st1 ++ [mkViewJob p requester])
                     (views_updates st1) in
        (st2, Ok200 (refresh_views st2 p l1))
      else (st, Ok200 l)
  end.

(** [n] successive retrieves of pk [p] by the same requester. *)
Fixpoint retrieve_n (st : Store) (requester : option nat) (p : nat) (n : nat) : Store :=
  match n with
  | 0 => st
  | S k => retrieve_n (fst (retrieve st requester p)) requester p k
  end.

End ListingViews.

(* ------------------------------------------------------------------------- *)
(** ** apps/inquiries: models, serializers and views *)

Module Inquiries.

Inductive InqStatus := PENDING | READ | REPLIED | CLOSED | SPAM.

Record Inquiry := mkInquiry {
  listing : nat;
  from_user : nat;
  to_user : nat;
  status : InqStatus;
  read_at : option Z;
  replied_at : option Z
}.

Record InqRow := mkInqRow { ipk : nat; inq : Inquiry }.

Record Store := mkStore {
  listings : Listings.Table;
  inquiries : list InqRow;
  notify_jobs : list nat
}.

Definition find_inquiry (st : Store) (p : nat) : option Inquiry :=
  match find (fun r => ipk r =? p) (inquiries st) with Some r => Some (inq r) | None => None end.

Definition put_inquiry (st : Store) (p : nat) (i : Inquiry) : Store :=
  mkStore (listings st)
    (map (fun r => if ipk r =? p then mkInqRow p i else r) (inquiries st)) (notify_jobs st).

(** [is_read] / [is_replied] *)
Definition is_read (i : Inquiry) : bool := Listings.is_set (read_at i).
Definition is_replied (i : Inquiry) : bool := Listings.is_set (replied_at i).

(** [Inquiry.mark_as_read] *)
Definition mark_as_read (now : Z) (i : Inquiry) : Inquiry :=
  if negb (is_read i)
  then mkInquiry (listing i) (from_user i) (to_user i) READ (Some now) (replied_at i)
  else i.

(** [Inquiry.mark_as_replied], called by [InquiryReply.save] *)
Definition mark_as_replied (now : Z) (i : Inquiry) : Inquiry :=
  if negb (is_replied i)
  then mkInquiry (listing i) (from_user i) (to_user i) REPLIED (read_at i) (Some now)
  else i.

Inductive Resp := R200 | R201 | R400 | R403 | R404.

(** [get_queryset]: inquiries the requester sent or received. *)
Definition participant (u : nat) (i : Inquiry) : bool := (from_user i =? u) || (to_user i =? u).

(** [InquiryViewSet.retrieve] *)
Definition retrieve (now : Z) (st : Store) (u p : nat) : Store * Resp :=
  match find_inquiry st p with
  | Some i =>
      if participant u i then
        if (to_user i =? u) && negb (is_read i)
        then (put_inquiry st p (mark_as_read now i), R200)
        else (st, R200)
      else (st, R404)
  | None => (st, R404)
  end.

(** [InquiryViewSet.reply]: recipient check, [InquiryReplySerializer]
    (the [message] field must be non-blank; [validate] repeats the recipient
    check), [InquiryReply.objects.create] whose [save] calls
    [mark_as_replied] (the reply row itself is not modelled). *)
Definition reply (now : Z) (st : Store) (u p : nat) (message : string) : Store * Resp :=
  match find_inquiry st p with
  | Some i =>
      if participant u i then
        if negb (to_user i =? u) then (st, R403)
        else if String.eqb (PyStr.strip message) EmptyString then (st, R400)
        else (put_inquiry st p (mark_as_replied now i), R201)
      else (st, R404)
  | None => (st, R404)
  end.

(** [InquiryViewSet.mark_spam] *)
Definition mark_spam (st : Store) (u p : nat) : Store * Resp :=
  match find_inquiry st p with
  | Some i =>
      if participant u i then
        if negb (to_user i =? u) then (st, R403)
        else (put_inquiry st p (mkInquiry (listing i) (from_user i) (to_user i) SPAM
                                   (read_at i) (replied_at i)), R200)
      else (st, R404)
  | None => (st, R404)
  end.

Inductive InqOp :=
  DoRetrieve (u p : nat) | DoReply (u p : nat) (message : string) | DoMarkSpam (u p : nat).

Definition inq_step (now : Z) (st : Store) (o : InqOp) : Store :=
  match o with
  | DoRetrieve u p => fst (retrieve now st u p)
  | DoReply u p m => fst (reply now st u p m)
  | DoMarkSpam u p => fst (mark_spam st u p)
  end.

Fixpoint inq_run (st : Store) (trace : list (Z * InqOp)) : Store :=
  match trace with
  | [] => st
  | (now, o) :: rest => inq_run (inq_step now st o) rest
  end.

(** The order the spec gives the statuses: pending, read, replied, spam. *)
Definition rank (s : InqStatus) : nat :=
  match s with PENDING => 0 | READ => 1 | REPLIED => 2 | CLOSED => 3 | SPAM => 3 end.

Inductive CreateResult := Created (p : nat) | ValidationError.

Definition next_ipk (st : Store) : nat := S (fold_right Nat.max 0 (map ipk (inquiries st))).

(** [InquiryCreateSerializer]: [validate_listing] (published, not one's own)
    then [create] inside [transaction.atomic]: one [Inquiry] row and one
    notification job; attachments are not modelled. *)
Definition create_inquiry (st : Store) (u listing_id : nat) : Store * CreateResult :=
  match Listings.find_row (listings st) listing_id with
  | None => (st, ValidationError)
  | Some l =>
      if negb (Listings.Status_eqb (Listings.status l) Listings.PUBLISHED) then (st, ValidationError)
      else if Listings.user l =? u then (st, ValidationError)
      else
        let p := next_ipk st in
        let i := mkInquiry listing_id u (Listings.user l) PENDING None None in
        (mkStore (listings st) (inquiries st ++ [mkInqRow p i]) (notify_jobs st ++ [p]),
         Created p)
  end.

Definition inquiries_for (st : Store) (listing_id : nat) : nat :=
  List.length (filter (fun r => listing (inq r) =? listing_id) (inquiries st)).

(** Sample data: one published listing of user 2, no inquiries. *)
Definition one_listing_store : Store :=
  mkStore [Listings.mkRow 1 (Listings.mkListing 2 Listings.PUBLISHED false 0 0 (Some 0%Z) None)] [] [].

(** Sample data: inquiry 1 from user 1 to user 2, pending. *)
Definition pending_store : Store :=
  mkStore [] [mkInqRow 1 (mkInquiry 1 1 2 PENDING None None)] [].

End Inquiries.

(* ------------------------------------------------------------------------- *)
(** ** apps/admin_panel: [ReportedContent] moderation *)

Module AdminPanel.

Local Open Scope string_scope.

Inductive ReportStatus := R_PENDING | REVIEWED | RESOLVED | DISMISSED.

Record Report := mkReport {
  rstatus : ReportStatus;
  reviewed_by : option nat;
  reviewed_at : option Z;
  admin_notes : string
}.

Record RepRow := mkRepRow { rpk : nat; rep : Report }.

(** An [AdminActionLog] row: admin and [action_type]. *)
Record LogEntry := mkLog { log_admin : nat; log_action : string }.

Record Store := mkStore { reports : list RepRow; action_log : list LogEntry }.

(** The authenticated requester: id and [is_staff] ([IsAdminUser]). *)
Record Requester := mkRequester { req_id : nat; req_is_staff : bool }.

Definition find_report (st : Store) (p : nat) : option Report :=
  match find (fun r => Nat.eqb (rpk r) p) (reports st) with Some r => Some (rep r) | None => None end.

(** [mark_as_reviewed(admin_user, notes)]: assigns the four columns on the
    instance and saves them ([update_fields] lists all four). *)
Definition mark_as_reviewed (now : Z) (r : Report) (admin : nat) (notes : string) : Report :=
  mkReport REVIEWED (Some admin) (Some now) notes.

Definition set_rstatus (s : ReportStatus) (r : Report) : Report :=
  mkReport s (reviewed_by r) (reviewed_at r) (admin_notes r).

Definition put_report (st : Store) (p : nat) (r : Report) : Store :=
  mkStore (map (fun x => if Nat.eqb (rpk x) p then mkRepRow p r else x) (reports st)) (action_log st).

Inductive Resp := Ok200 | Forbidden403 | NotFound404 | Error500 (exc : string).

Definition content_reviewed : string := "content_reviewed".

(** [get_FOO_display] is contributed to the model only for a field declared
    with [choices]; [reason] is a plain [CharField]. *)
Definition reason_has_choices : bool := false.

(** [ReportedContentViewSet.resolve] and [dismiss]: the status assigned on
    the instance, then [mark_as_reviewed] (which saves), then the log entry,
    whose description calls [report.get_reason_display()].  No
    [transaction.atomic] wraps the action, so the save stays. *)
Definition review (target : ReportStatus) (now : Z) (st : Store) (who : Requester) (p : nat)
  (notes : string) : Store * Resp :=
  if negb (req_is_staff who) then (st, Forbidden403) else
  match find_report st p with
  | None => (st, NotFound404)
  | Some r =>
      let r1 := set_rstatus target r in
      let r2 := mark_as_reviewed now r1 (req_id who) notes in
      let st1 := put_report st p r2 in
      if reason_has_choices
      then (mkStore (reports st1) (app (action_log st1) [mkLog (req_id who) content_reviewed]), Ok200)
      else (st1, Error500 "AttributeError")
  end.

Definition resolve (now : Z) (st : Store) (who : Requester) (p : nat) (notes : string) :=
  review RESOLVED now st who p notes.

Definition dismiss (now : Z) (st : Store) (who : Requester) (p : nat) (notes : string) :=
  review DISMISSED now st who p notes.

(** Sample data: report 1, pending. *)
Definition pending_report_store : Store :=
  mkStore [mkRepRow 1 (mkReport R_PENDING None None EmptyString)] [].

End AdminPanel.

(* ------------------------------------------------------------------------- *)
(** ** OneTimePassword and [OTPVerifySerializer] (apps/accounts) *)

Module OTP.

Inductive Purpose := REGISTRATION | LOGIN.

Definition Purpose_eqb (a b : Purpose) : bool :=
  match a, b with REGISTRATION, REGISTRATION | LOGIN, LOGIN => true | _, _ => false end.

(** The columns the admin and the serializers name: email, code, purpose,
    expires_at, used, created_at. *)
Record OneTimePassword := mkOTP {
  email : string;
  code : string;
  purpose : Purpose;
  expires_at : Z;
  used : bool;
  created_at : Z
}.

Record OtpRow := mkOtpRow { opk : nat; otp : OneTimePassword }.

(** Modelled from the spec: [OneTimePassword.is_valid], whose model class is
    not under src/.  The spec: "a code is valid only if unused and not
    expired"; expiry read as the sibling [PasswordResetToken.is_expired]
    does, [timezone.now() > expires_at]. *)
Definition is_valid (now : Z) (o : OneTimePassword) : bool :=
  negb (used o) && negb (expires_at o <? now)%Z.

(** Modelled from the spec: [OneTimePassword.mark_used] ("consumed (marked
    used) on successful verification"), as the sibling
    [PasswordResetToken.mark_used]: [used = True] saved on the row. *)
Definition mark_used (tbl : list OtpRow) (p : nat) : list OtpRow :=
  map (fun r => if Nat.eqb (opk r) p then
                  mkOtpRow (opk r) (mkOTP (email (otp r)) (code (otp r)) (purpose (otp r))
                                      (expires_at (otp r)) true (created_at (otp r)))
                else r) tbl.

(** [filter(email__iexact=email, code=code, purpose=purpose)] *)
Definition matches (e c : string) (pu : Purpose) (o : OneTimePassword) : bool :=
  PyStr.iexact (email o) e && String.eqb (code o) c && Purpose_eqb (purpose o) pu.

(** [.latest("created_at")]: a row with the greatest [created_at] (the first
    in table order among equal ones); [None] is [DoesNotExist]. *)
Definition latest (rows : list OtpRow) : option OtpRow :=
  fold_left (fun acc r => match acc with
                          | None => Some r
                          | Some b => if (created_at (otp b) <? created_at (otp r))%Z
                                      then Some r else acc
                          end) rows None.

(** The queryset of [validate]: email lower-cased and stripped, code stripped. *)
Definition candidates (tbl : list OtpRow) (e c : string) (pu : Purpose) : list OtpRow :=
  filter (fun r => matches (PyStr.strip (PyStr.lower e)) (PyStr.strip c) pu (otp r)) tbl.

Inductive VerifyResult := Verified (p : nat) | InvalidCode | ExpiredOrUsed.

(** [OTPVerifySerializer]: the [code] field ([CharField(max_length=6)],
    checked on the trimmed value; a longer code is a validation error of the
    input), [validate], then [create] (which marks the row used). *)
Definition verify (now : Z) (tbl : list OtpRow) (e c : string) (pu : Purpose)
  : list OtpRow * VerifyResult :=
  if 6 <? String.length (PyStr.strip c) then (tbl, InvalidCode) else
  match latest (candidates tbl e c pu) with
  | None => (tbl, InvalidCode)
  | Some r => if is_valid now (otp r) then (mark_used tbl (opk r), Verified (opk r))
              else (tbl, ExpiredOrUsed)
  end.

(** One step of the fold of [latest]. *)
Definition latest_step (acc : option OtpRow) (r : OtpRow) : option OtpRow :=
  match acc with
  | None => Some r
  | Some b => if (created_at (otp b) <? created_at (otp r))%Z then Some r else acc
  end.

(** The per-row effect of [mark_used]. *)
Definition use_row (p : nat) (r : OtpRow) : OtpRow :=
  if opk r =? p then
    mkOtpRow (opk r) (mkOTP (email (otp r)) (code (otp r)) (purpose (otp r))
                        (expires_at (otp r)) true (created_at (otp r)))
  else r.

(** Sample data: the same code sent twice to one address. *)
Definition otp_table : list OtpRow :=
  [mkOtpRow 1 (mkOTP "ana@example.com" "123456" REGISTRATION 50 false 10);
   mkOtpRow 2 (mkOTP "ana@example.com" "123456" REGISTRATION 90 false 20)].

End OTP.

(* ------------------------------------------------------------------------- *)
(** ** apps/accounts: users, registration, profile *)

Module Accounts.

Local Open Scope string_scope.

Inductive Role := BUYER | SELLER | SERVICE_PROVIDER | ADMIN | SUPER_ADMIN.

Record User := mkUser {
  uid : nat;
  email : string;
  username : string;
  role : Role;
  company : string;
  phone : string;
  location : string;
  has_password : bool
}.

(** Names [hasattr(User, name)] finds on the [User] model class: its own
    fields, those of [AbstractUser], and the methods the serializers use. *)
Definition user_model_attributes : list string :=
  ["id"; "password"; "last_login"; "is_superuser"; "username"; "first_name";
   "last_name"; "email"; "is_staff"; "is_active"; "date_joined"; "groups";
   "user_permissions"; "role"; "company"; "phone"; "location"; "profile_image";
   "is_verified"; "created_at"; "updated_at"; "get_full_name"; "get_short_name";
   "is_buyer"; "is_seller"; "is_service_provider"; "is_admin_user";
   "can_create_listings"].

Definition mem (x : string) (l : list string) : bool := existsb (String.eqb x) l.

(** [ModelSerializer.get_fields]: a name of [Meta.fields] that is neither
    declared on the serializer nor an attribute of the model makes
    [build_unknown_field] raise [ImproperlyConfigured]. *)
Definition unknown_field (declared meta : list string) : option string :=
  find (fun f => negb (mem f declared || mem f user_model_attributes)) meta.

(** [UserRegistrationSerializer] *)
Definition registration_declared : list string := ["password"; "password_confirm"].

Definition registration_meta_fields : list string :=
  ["username"; "email"; "password"; "password_confirm"; "full_name"; "role";
   "company"; "phone"; "location"].

Record RegData := mkRegData {
  r_username : string;
  r_email : string;
  r_password : option string;
  r_password_confirm : option string;
  r_full_name : string;
  r_role : option Role;
  r_company : string;
  r_phone : string;
  r_location : string
}.

Definition set_role (r : option Role) (d : RegData) : RegData :=
  mkRegData (r_username d) (r_email d) (r_password d) (r_password_confirm d) (r_full_name d) r
    (r_company d) (r_phone d) (r_location d).

Inductive RegResult :=
| Created (u : User)
| ValidationError (field : string)
| ImproperlyConfigured (field : string).

Definition truthy (o : option string) : bool :=
  match o with Some s => negb (String.eqb s EmptyString) | None => false end.

Definition opt_string_eqb (a b : option string) : bool :=
  match a, b with
  | Some x, Some y => String.eqb x y
  | None, None => true
  | _, _ => false
  end.

Section Registration.

(** Django's [validate_password] under the configured validators. *)
Variable validate_password : string -> bool.

(** [UserRegistrationSerializer.validate]; [otps] is the OTP table. *)
Definition registration_validate (now : Z) (otps : list OTP.OtpRow) (d : RegData)
  : option string :=
  let otp_valid :=
    existsb (fun r => PyStr.iexact (OTP.email (OTP.otp r)) (r_email d) &&
                      OTP.Purpose_eqb (OTP.purpose (OTP.otp r)) OTP.REGISTRATION &&
                      OTP.used (OTP.otp r) && (now <=? OTP.expires_at (OTP.otp r))%Z) otps in
  let pw := match r_password d with Some s => s | None => EmptyString end in
  if otp_valid then
    if truthy (r_password d) then
      if negb (opt_string_eqb (r_password d) (r_password_confirm d)) then Some "password_confirm"
      else if validate_password pw then None else Some "password"
    else None
  else
    if negb (truthy (r_password d)) then Some "password"
    else if negb (opt_string_eqb (r_password d) (r_password_confirm d)) then Some "password_confirm"
    else if validate_password pw then None else Some "password".

(** [UserRegistrationSerializer.create] ([create_user], [User.save] lower-cases
    the email); the new id is the next key. *)
Definition registration_create (users : list User) (d : RegData) : list User * User :=
  let u := mkUser (S (fold_right Nat.max 0 (map uid users))) (PyStr.lower (r_email d))
             (r_username d) (match r_role d with Some r => r | None => BUYER end)
             (r_company d) (r_phone d) (r_location d) (truthy (r_password d)) in
  (app users [u], u).

(** [POST /auth/register]: the serializer's fields are built first, then the
    field validators (email present and unused, full name present), then
    [validate] and [create]. *)
Definition register (now : Z) (otps : list OTP.OtpRow) (users : list User) (d : RegData)
  : list User * RegResult :=
  match unknown_field registration_declared registration_meta_fields with
  | Some f => (users, ImproperlyConfigured f)
  | None =>
      if String.eqb (r_email d) EmptyString then (users, ValidationError "email")
      else if existsb (fun u => String.eqb (email u) (r_email d)) users
      then (users, ValidationError "email")
      else if String.eqb (r_full_name d) EmptyString then (users, ValidationError "full_name")
      else match registration_validate now otps d with
           | Some f => (users, ValidationError f)
           | None => let (users', u) := registration_create users d in (users', Created u)
           end
  end.

End Registration.

(** [UserProfileViewSet] ([GET/PUT/PATCH /auth/profile]). *)
Definition find_user (users : list User) (k : nat) : option User :=
  find (fun u => Nat.eqb (uid u) k) users.

Definition with_uid (k : nat) (u : User) : User :=
  mkUser k (email u) (username u) (role u) (company u) (phone u) (location u) (has_password u).

Section ProfileView.

(** The request payload of an update. *)
Variable Payload : Type.
(** The serializer on the instance: [UserProfileSerializer(instance).data]
    ([false]: rendering raised) and [UserProfileUpdateSerializer] validation
    and save ([None]: rejected or raised). *)
Variable render : User -> bool.
Variable update_serializer : User -> Payload -> option User.

Inductive ProfileAction := ActRetrieve | ActUpdate (partial : bool) (payload : Payload).

Inductive ProfileResp := P200 (u : User) | P400 | P401 | P500.

(** [get_object] returns [request.user]: the authenticated requester's record
    ([requester] is the id in the token; [url_pk] any lookup kwarg). *)
Definition profile_view (users : list User) (requester : option nat) (url_pk : option nat)
  (a : ProfileAction) : list User * ProfileResp :=
  match requester with
  | None => (users, P401)
  | Some k =>
      match find_user users k with
      | None => (users, P401)
      | Some obj =>
          match a with
          | ActRetrieve => if render obj then (users, P200 obj) else (users, P500)
          | ActUpdate _ payload =>
              match update_serializer obj payload with
              | Some obj' =>
                  let saved := with_uid (uid obj) obj' in
                  (map (fun u => if Nat.eqb (uid u) (uid obj) then saved else u) users, P200 saved)
              | None => (users, P400)
              end
          end
      end
  end.

End ProfileView.

(** [UserProfileUpdateSerializer]: [Meta.fields] of the update serializer. *)
Definition profile_update_meta_fields : list string :=
  ["full_name"; "company"; "phone"; "location"; "profile_image"].

End Accounts.

(* ------------------------------------------------------------------------- *)
(** ** apps/core/views.py: [GlobalSearchView] *)

Module CoreSearch.

Local Open Scope string_scope.

Record ListingText := mkListingText {
  title : string; description : string; manufacturer : string; model : string;
  location : string; published : bool
}.

Record CategoryText := mkCategoryText { name : string; cdescription : string }.

Record UserText := mkUserText {
  id : nat; username : string; email : string; company : string; role : string;
  is_active : bool
}.

Record SearchDb := mkSearchDb {
  listings : list ListingText; categories : list CategoryText; users : list UserText
}.

(** Names bound at module level in apps/core/views.py (its imports and
    assignments). *)
Definition core_views_globals : list string :=
  ["APIView"; "Response"; "status"; "permissions"; "Q"; "Listing"; "Category";
   "get_user_model"; "ListingListSerializer"; "CategorySerializer"; "User";
   "GlobalSearchView"].

Inductive SearchResp :=
| Bad400
| Ok200 (ls : list ListingText) (cs : list CategoryText)
        (us : list (nat * string * string * string * string))
| NameError (name : string).

Definition bound (n : string) : bool := existsb (String.eqb n) core_views_globals.

(** [GlobalSearchView.get] with query parameter [q] ([None]: absent).
    Evaluating the name of a serializer class that is not bound raises
    [NameError]. *)
Definition global_search (db : SearchDb) (q : option string) : SearchResp :=
  let query := PyStr.strip (match q with Some s => s | None => EmptyString end) in
  if String.eqb query EmptyString then Bad400 else
  let listings_qs :=
    firstn 10 (filter (fun l => (PyStr.icontains (title l) query
                                 || PyStr.icontains (description l) query
                                 || PyStr.icontains (manufacturer l) query
                                 || PyStr.icontains (model l) query
                                 || PyStr.icontains (location l) query) && published l)
                      (listings db)) in
  if negb (bound "ListingSerializer") then NameError "ListingSerializer" else
  let categories_qs :=
    firstn 10 (filter (fun c => PyStr.icontains (name c) query
                                || PyStr.icontains (cdescription c) query) (categories db)) in
  if negb (bound "CategorySerializer") then NameError "CategorySerializer" else
  let users_qs :=
    firstn 10 (filter (fun u => (PyStr.icontains (username u) query
                                 || PyStr.icontains (email u) query
                                 || PyStr.icontains (company u) query) && is_active u)
                      (users db)) in
  Ok200 listings_qs categories_qs
        (map (fun u => (id u, username u, email u, company u, role u)) users_qs).

(** Sample data: one match in each section. *)
Definition search_db : SearchDb :=
  mkSearchDb [mkListingText "CAT 320 excavator" "tracked" "Caterpillar" "320" "Lagos" true]
             [mkCategoryText "Excavators" "earthmoving"]
             [mkUserText 4 "dredgeco" "ops@dredge.example" "Excavator Hire Ltd" "seller" true].

End CoreSearch.

(* ------------------------------------------------------------------------- *)
(** ** [Listing.save]: slug generation *)

Module ListingSlug.
Import Listings.

Local Open Scope string_scope.

(** [f"{counter}"] for a non-negative int. *)
Definition nat_to_string (n : nat) : string :=
  DecimalString.NilZero.string_of_uint (Nat.to_uint n).

(** [f"{base_slug}-{counter}"] *)
Definition numbered (base : string) (counter : nat) : string :=
  base ++ "-" ++ nat_to_string counter.

(** [Listing.objects.filter(slug=slug).exclude(pk=self.pk).exists()] over
    the slug column, given as [(pk, slug)] pairs. *)
Definition slug_taken (slugs : list (nat * string)) (self_pk : option nat) (s : string) : bool :=
  existsb (fun ps => String.eqb (snd ps) s && negb (excluded self_pk (fst ps))) slugs.

(** The [while] loop of [save], run for at most [fuel] tests. *)
Fixpoint slug_loop (slugs : list (nat * string)) (self_pk : option nat) (base slug : string)
  (counter fuel : nat) : option string :=
  match fuel with
  | 0 => None
  | S f => if slug_taken slugs self_pk slug
           then slug_loop slugs self_pk base (numbered base counter) (S counter) f
           else Some slug
  end.

(** The slug branch of [Listing.save] when [self.slug] is empty, [base]
    being [slugify(self.title)]; one test more than there are rows always
    suffices (proved below), so [None] is never returned. *)
Definition generate_slug (slugs : list (nat * string)) (self_pk : option nat) (base : string)
  : option string :=
  slug_loop slugs self_pk base base 1 (S (List.length slugs)).

(** The [k]-th slug the loop tries: [base_slug], then [base_slug-k]. *)
Definition candidate (base : string) (k : nat) : string :=
  match k with 0 => base | S _ => numbered base k end.

End ListingSlug.

(* ------------------------------------------------------------------------- *)
(** ** [Listing.is_expired] and [Listing.expire_if_needed] *)

Module ListingExpiry.
Import Listings.

(** [is_expired]: [False] without [expires_at], else [now > expires_at]. *)
Definition is_expired (now : Z) (l : Listing) : bool :=
  match expires_at l with None => false | Some t => (t <? now)%Z end.

(** Whether [expire_if_needed] changes the instance. *)
Definition expire_fires (now : Z) (l : Listing) : bool :=
  is_expired now l && Status_eqb (status l) PUBLISHED.

(** [expire_if_needed] on the instance of pk [p]: the new instance and the
    table after [save(update_fields=["status"])]. *)
Definition expire_if_needed (now : Z) (db : Table) (p : nat) (l : Listing) : Listing * Table :=
  if expire_fires now l then
    let l' := set_status ARCHIVED l in
    (l', result_db (save now db (mkInstance (Some p) l') (Some [f_status])))
  else (l, db).

End ListingExpiry.

(* ------------------------------------------------------------------------- *)
(** ** [ListingViewSet.publish] and [archive] with their permissions *)

Module ListingActions.
Import Listings.

(** The authenticated requester ([None]: anonymous). *)
Record Requester := mkRequester { rq_id : nat; rq_role : Accounts.Role }.

(** [User.is_admin_user] *)
Definition is_admin_user (r : Accounts.Role) : bool :=
  match r with Accounts.ADMIN | Accounts.SUPER_ADMIN => true | _ => false end.

(** [User.can_create_listings] *)
Definition can_create_listings (r : Accounts.Role) : bool :=
  match r with Accounts.SELLER | Accounts.SERVICE_PROVIDER => true | _ => false end.

(** [has_permission] of [IsOwnerOrAdminOrReadOnly] (a write needs an
    authenticated user) and of [CanCreateListing] (a POST needs
    [can_create_listings]), for a POST. *)
Definition post_permitted (who : option Requester) : bool :=
  match who with None => false | Some r => can_create_listings (rq_role r) end.

(** [IsOwnerOrAdminOrReadOnly.has_object_permission] for a write, and the
    same test written out in the two actions. *)
Definition owner_or_admin (who : option Requester) (l : Listing) : bool :=
  match who with None => false | Some r => (user l =? rq_id r) || is_admin_user (rq_role r) end.

Inductive ActResp := Done200 | Bad400 | Denied | NotFound404 | Error500.

Definition after_save (r : SaveResult) : Table * ActResp :=
  match r with SaveOk db _ => (db, Done200) | SaveErr db => (db, Error500) end.

(** [publish]: [get_object] on the whole table (the action is neither
    [list] nor [retrieve]), then the draft check, the owner check, and
    [save(update_fields=['status', 'published_at'])]. *)
Definition publish (now : Z) (db : Table) (who : option Requester) (p : nat) : Table * ActResp :=
  if negb (post_permitted who) then (db, Denied) else
  match find_row db p with
  | None => (db, NotFound404)
  | Some l =>
      if negb (owner_or_admin who l) then (db, Denied)
      else if negb (Status_eqb (status l) DRAFT) then (db, Bad400)
      else if negb (owner_or_admin who l) then (db, Denied)
      else after_save (save now db (mkInstance (Some p) (set_status PUBLISHED l))
                         (Some [f_status; f_published_at]))
  end.

(** [archive]: the owner check and [save(update_fields=['status'])]. *)
Definition archive (now : Z) (db : Table) (who : option Requester) (p : nat) : Table * ActResp :=
  if negb (post_permitted who) then (db, Denied) else
  match find_row db p with
  | None => (db, NotFound404)
  | Some l =>
      if negb (owner_or_admin who l) then (db, Denied)
      else if negb (owner_or_admin who l) then (db, Denied)
      else after_save (save now db (mkInstance (Some p) (set_status ARCHIVED l)) (Some [f_status]))
  end.

Inductive ListingType := SELL | RENT | LEASE | SERVICE.

(** [ListingCreateUpdateSerializer.validate_listing_type] for a requester
    of role [r] ([true]: accepted). *)
Definition validate_listing_type (r : Accounts.Role) (t : ListingType) : bool :=
  let is_service_provider := match r with Accounts.SERVICE_PROVIDER => true | _ => false end in
  let is_seller := match r with Accounts.SELLER => true | _ => false end in
  if match t with SERVICE => true | _ => false end && negb is_service_provider then false
  else if match t with SELL | RENT | LEASE => true | _ => false end && negb is_seller then false
  else true.

End ListingActions.

(* ------------------------------------------------------------------------- *)
(** ** [ListingImage] rows, [_create_images] and the primary-image signal *)

Module ListingImages.

Record Image := mkImage {
  img_pk : nat; img_listing : nat; image : string; is_primary : bool; sort_order : nat
}.

Definition next_img_pk (imgs : list Image) : nat := S (fold_right Nat.max 0 (map img_pk imgs)).

(** [ListingImage.objects.create(...)]: one INSERT.  The [post_save]
    receiver [ensure_single_primary_image] of listings/signals.py is never
    connected: the [listings] app has no [AppConfig.ready] and no module
    imports [signals.py]. *)
Definition create_image (imgs : list Image) (listing : nat) (f : string) (primary : bool)
  (order : nat) : list Image :=
  imgs ++ [mkImage (next_img_pk imgs) listing f primary order].

(** The loop of [_create_images] from index [i]. *)
Fixpoint create_images_from (imgs : list Image) (listing i : nat) (files : list string) : list Image :=
  match files with
  | [] => imgs
  | f :: fs => create_images_from (create_image imgs listing f (i =? 0) i) listing (S i) fs
  end.

(** [ListingCreateUpdateSerializer._create_images]:
    [for i, image_data in enumerate(images_data)] with
    [is_primary=(i == 0), sort_order=i]. *)
Definition create_images (imgs : list Image) (listing : nat) (files : list string) : list Image :=
  create_images_from imgs listing 0 files.

(** [update] with [images_data]: [instance.images.all().delete()], then
    [_create_images]. *)
Definition replace_images (imgs : list Image) (listing : nat) (files : list string) : list Image :=
  create_images (filter (fun r => negb (img_listing r =? listing)) imgs) listing files.

(** The images of a listing as (file, primary, order) triples. *)
Definition listing_images (imgs : list Image) (listing : nat) : list (string * bool * nat) :=
  map (fun r => (image r, is_primary r, sort_order r))
    (filter (fun r => img_listing r =? listing) imgs).

End ListingImages.

(* ------------------------------------------------------------------------- *)
(** ** [ListingViewSet.get_client_ip] *)

Module ListingRequestHelpers.

Local Open Scope string_scope.

(** [s.split(',')[0]] *)
Fixpoint before_comma (s : string) : string :=
  match s with
  | EmptyString => EmptyString
  | String c r => if Ascii.eqb c "," then EmptyString else String c (before_comma r)
  end.

(** [get_client_ip] from [HTTP_X_FORWARDED_FOR] and [REMOTE_ADDR]
    ([None]: header absent). *)
Definition get_client_ip (xff remote : option string) : option string :=
  match xff with
  | Some h => if String.eqb h EmptyString then remote else Some (PyStr.strip (before_comma h))
  | None => remote
  end.

End ListingRequestHelpers.

(* ------------------------------------------------------------------------- *)
(** ** Inquiry operations: actor and target *)

Module InquiryOps.
Import Inquiries.

Definition op_actor (o : InqOp) : nat :=
  match o with DoRetrieve u _ | DoReply u _ _ | DoMarkSpam u _ => u end.

Definition op_target (o : InqOp) : nat :=
  match o with DoRetrieve _ p | DoReply _ p _ | DoMarkSpam _ p => p end.

End InquiryOps.

(* ------------------------------------------------------------------------- *)
(** ** [UserRoleUpdateSerializer] *)

Module RoleUpdate.
Import Accounts.

Definition is_admin_role (r : Role) : bool :=
  match r with ADMIN | SUPER_ADMIN => true | _ => false end.

Definition is_super_admin (r : Role) : bool :=
  match r with SUPER_ADMIN => true | _ => false end.

(** [validate_role] (run when [role] is in the data) then [update], by a
    requester of role [req] on a user of role [cur] and [is_verified]
    [ver]; [None] is a validation error, [Some] the saved role and flag. *)
Definition role_update (req cur : Role) (ver : bool) (new_role : option Role)
  (new_verified : option bool) : option (Role * bool) :=
  let role_ok := match new_role with
                 | Some r => negb (is_admin_role r && negb (is_super_admin req))
                 | None => true
                 end in
  if negb role_ok then None else
  let nr := match new_role with Some r => r | None => cur end in
  if is_admin_role nr && negb (is_super_admin req) then None
  else if is_super_admin cur && negb (is_super_admin req) then None
  else Some (nr, match new_verified with Some v => v | None => ver end).

End RoleUpdate.

(* ------------------------------------------------------------------------- *)
(** ** Password reset: [PasswordResetToken] and its two serializers *)

Module PasswordReset.

Local Open Scope string_scope.

(** The [User] columns the reset flow reads and writes. *)
Record Account := mkAccount {
  acc_id : nat; acc_email : string; acc_active : bool; acc_password : option string
}.

Record ResetToken := mkResetToken {
  tok_pk : nat; tok_user : nat; token : string; tok_used : bool; tok_expires_at : Z
}.

(** The tables and the two mail queues: [send_password_reset_email_task]
    (token ids) and [send_password_reset_confirmation_email_task] (user ids). *)
Record Store := mkStore {
  accounts : list Account; tokens : list ResetToken;
  reset_mails : list nat; confirm_mails : list nat
}.

(** [PasswordResetToken.is_expired] and [is_valid] *)
Definition is_expired (now : Z) (t : ResetToken) : bool := (tok_expires_at t <? now)%Z.
Definition is_valid (now : Z) (t : ResetToken) : bool := negb (tok_used t) && negb (is_expired now t).




Section Reset.

(** DRF's [EmailValidator] and Django's [validate_password]. *)
Variable is_email : string -> bool.
Variable validate_password : string -> bool.


Inductive ConfirmResult :=
| PasswordWasReset (u : nat)
| BlankField
| InvalidToken
| TokenExpiredOrUsed
| PasswordRejected
| ConfirmMismatch
| ConfirmError.

Definition set_password (u : nat) (pw : string) (a : Account) : Account :=
  if Nat.eqb (acc_id a) u then mkAccount (acc_id a) (acc_email a) (acc_active a) (Some pw) else a.

(** [mark_used]: [save(update_fields=['used'])] on the token's row. *)
Definition use_token (p : nat) (t : ResetToken) : ResetToken :=
  if Nat.eqb (tok_pk t) p then mkResetToken (tok_pk t) (tok_user t) (token t) true (tok_expires_at t)
  else t.

(** [PasswordResetConfirmView.post]: the three [CharField]s (whitespace
    trimmed, non-blank), [validate_token] ([get(token=value)], then
    [is_valid()]), [validate_password] on [new_password], [validate] (the
    two passwords equal), then [save] inside [transaction.atomic] (the
    user's password set, the token marked used) and the confirmation mail.
    Any validation error leaves the store as it was. *)
Definition reset_confirm (now : Z) (st : Store) (value pw pw2 : string) : Store * ConfirmResult :=
  let v := PyStr.strip value in
  let p1 := PyStr.strip pw in
  let p2 := PyStr.strip pw2 in
  if String.eqb v EmptyString || String.eqb p1 EmptyString || String.eqb p2 EmptyString
  then (st, BlankField) else
  match filter (fun t => String.eqb (token t) v) (tokens st) with
  | [] => (st, InvalidToken)
  | [t] =>
      if negb (is_valid now t) then (st, TokenExpiredOrUsed)
      else if negb (validate_password p1) then (st, PasswordRejected)
      else if negb (String.eqb p1 p2) then (st, ConfirmMismatch)
      else (mkStore (map (set_password (tok_user t) p1) (accounts st))
              (map (use_token (tok_pk t)) (tokens st)) (reset_mails st)
              (confirm_mails st ++ [tok_user t]),
            PasswordWasReset (tok_user t))
  | _ => (st, ConfirmError)
  end.

End Reset.

End PasswordReset.

(* ------------------------------------------------------------------------- *)
(** ** Service-provider verification ([VerificationViewSet],
       [VerificationAdminViewSet], [VerificationRequest.approve/reject]) *)

Module Verification.
Import Accounts.

Local Open Scope string_scope.

Inductive VStatus := V_PENDING | APPROVED | REJECTED | REQUIRES_MORE_INFO.

Definition VStatus_eqb (a b : VStatus) : bool :=
  match a, b with
  | V_PENDING, V_PENDING | APPROVED, APPROVED | REJECTED, REJECTED
  | REQUIRES_MORE_INFO, REQUIRES_MORE_INFO => true
  | _, _ => false
  end.

Record VRequest := mkVRequest {
  v_pk : nat; v_user : nat; v_status : VStatus; v_reviewed_by : option nat;
  v_reviewed_at : option Z; v_notes : string
}.

(** The [User] columns the workflow reads and writes. *)
Record VUser := mkVUser { vu_id : nat; vu_role : Role; vu_verified : bool }.

(** The tables, the decision mails queued, and the [AdminActionLog] rows
    ([user_verified], by admin id). *)
Record Store := mkStore {
  vusers : list VUser; vrequests : list VRequest; decision_mails : list nat; vlog : list nat
}.

Inductive VResp := VOk | VCreated (p : nat) | VBad400 | VDenied | VNotFound404.

Definition find_vuser (st : Store) (u : nat) : option VUser :=
  find (fun x => Nat.eqb (vu_id x) u) (vusers st).

Definition find_vrequest (st : Store) (p : nat) : option VRequest :=
  find (fun x => Nat.eqb (v_pk x) p) (vrequests st).

Definition put_vrequest (st : Store) (p : nat) (r : VRequest) : Store :=
  mkStore (vusers st) (map (fun x => if Nat.eqb (v_pk x) p then r else x) (vrequests st))
    (decision_mails st) (vlog st).

Definition next_vpk (st : Store) : nat := S (fold_right Nat.max 0 (map v_pk (vrequests st))).

(** [VerificationViewSet.request_verification] by user [who]. *)
Definition request_verification (st : Store) (who : VUser) : Store * VResp :=
  match vu_role who with
  | SERVICE_PROVIDER =>
      if vu_verified who then (st, VBad400) else
      let p := next_vpk st in
      (mkStore (vusers st) (vrequests st ++ [mkVRequest p (vu_id who) V_PENDING None None EmptyString])
         (decision_mails st) (vlog st), VCreated p)
  | _ => (st, VBad400)
  end.

(** [IsAdminOrSuperAdmin.has_permission] *)
Definition admin_or_super (r : Role) : bool :=
  match r with ADMIN | SUPER_ADMIN => true | _ => false end.

(** [approve_request] ([approve = true]) and [reject_request]: pending
    check, [approve] (which also sets the user's [is_verified]) or
    [reject], the mail task and the log entry. *)
Definition decide (approve : bool) (now : Z) (st : Store) (admin : nat) (admin_role : Role)
  (p : nat) (notes : string) : Store * VResp :=
  if negb (admin_or_super admin_role) then (st, VDenied) else
  match find_vrequest st p with
  | None => (st, VNotFound404)
  | Some r =>
      if negb (VStatus_eqb (v_status r) V_PENDING) then (st, VBad400) else
      let r' := mkVRequest (v_pk r) (v_user r) (if approve then APPROVED else REJECTED)
                  (Some admin) (Some now) notes in
      let st1 := put_vrequest st p r' in
      let users' := if approve
                    then map (fun x => if Nat.eqb (vu_id x) (v_user r)
                                       then mkVUser (vu_id x) (vu_role x) true else x) (vusers st1)
                    else vusers st1 in
      (mkStore users' (vrequests st1) (decision_mails st1 ++ [p]) (vlog st1 ++ [admin]), VOk)
  end.

(** [VerificationRequest.objects.filter(user=u, status=PENDING).count()] *)
Definition pending_requests (st : Store) (u : nat) : nat :=
  List.length (filter (fun r => Nat.eqb (v_user r) u && VStatus_eqb (v_status r) V_PENDING)
                 (vrequests st)).

End Verification.

(* ------------------------------------------------------------------------- *)
(** ** [ReportedContentAdmin]: the bulk actions *)

Module ReportBulk.
Import AdminPanel.

Local Open Scope string_scope.

(** One report of the selection: the assignments, [mark_as_reviewed] and
    [AdminActionLog.log_action]. *)
Definition bulk_one (target : ReportStatus) (now : Z) (admin : nat) (notes : string)
  (acc : Store * nat) (r : RepRow) : Store * nat :=
  let '(st, count) := acc in
  let r1 := set_rstatus target (rep r) in
  let r2 := mark_as_reviewed now r1 admin notes in
  let st1 := put_report st (rpk r) r2 in
  (mkStore (reports st1) (app (action_log st1) [mkLog admin content_reviewed]), S count).

Definition is_selected (sel : list nat) (r : RepRow) : bool := existsb (Nat.eqb (rpk r)) sel.

(** [mark_as_resolved]: the selected reports with status pending; the
    queryset is read once, then each row is saved.  Returns the count. *)
Definition mark_as_resolved (now : Z) (st : Store) (admin : nat) (sel : list nat) : Store * nat :=
  fold_left (bulk_one RESOLVED now admin "Bulk action: marked as resolved via admin")
    (filter (fun r => is_selected sel r &&
                      match rstatus (rep r) with R_PENDING => true | _ => false end) (reports st))
    (st, 0).

(** [mark_as_dismissed]: the selected reports whose status is neither
    dismissed nor resolved. *)
Definition mark_as_dismissed (now : Z) (st : Store) (admin : nat) (sel : list nat) : Store * nat :=
  fold_left (bulk_one DISMISSED now admin "Bulk action: dismissed as invalid via admin")
    (filter (fun r => is_selected sel r &&
                      match rstatus (rep r) with DISMISSED | RESOLVED => false | _ => true end)
       (reports st))
    (st, 0).

End ReportBulk.

(* ========================================================================= *)
(** * Proofs *)

Module ListingFacts.
Import Listings.

Lemma write_fields_user uf src dst :
  user (write_fields uf src dst) = user src \/ user (write_fields uf src dst) = user dst.
Proof.
  destruct uf as [fs|]; simpl; [|now left].
  revert dst; induction fs as [|f fs IH]; intros dst; simpl; [now right|].
  destruct (IH (write_field f src dst)) as [H|H]; rewrite H; [now left|].
  destruct f; simpl; auto.
Qed.

Lemma write_fields_featured uf src dst :
  featured (write_fields uf src dst) = featured src \/
  featured (write_fields uf src dst) = featured dst.
Proof.
  destruct uf as [fs|]; simpl; [|now left].
  revert dst; induction fs as [|f fs IH]; intros dst; simpl; [now right|].
  destruct (IH (write_field f src dst)) as [H|H]; rewrite H; [now left|].
  destruct f; simpl; auto.
Qed.

Lemma stamp_published_user now l : user (stamp_published now l) = user l.
Proof. unfold stamp_published; destruct (_ && _); reflexivity. Qed.

Lemma stamp_published_featured now l : featured (stamp_published now l) = featured l.
Proof. unfold stamp_published; destruct (_ && _); reflexivity. Qed.

Lemma setattrs_user a l : user (setattrs a l) = user l.
Proof.
  destruct a as [[s|] [b|] [t|]]; reflexivity.
Qed.

Lemma map_pk_unfeature db u excl : map pk (unfeature_others db u excl) = map pk db.
Proof.
  unfold unfeature_others; rewrite map_map; apply map_ext; intros r.
  destruct (_ && _ && _); reflexivity.
Qed.

Lemma map_pk_update_row db p g : map pk (update_row db p g) = map pk db.
Proof.
  unfold update_row; rewrite map_map; apply map_ext; intros r.
  destruct (pk r =? p) eqn:E; [apply Nat.eqb_eq in E; auto | reflexivity].
Qed.

(** A row of [unfeature_others] comes from a row with the same key and
    owner; it is featured only if that row was and the UPDATE skipped it. *)
Lemma in_unfeature_others r db u excl :
  In r (unfeature_others db u excl) ->
  exists r0, In r0 db /\ pk r = pk r0 /\ user (row r) = user (row r0) /\
    (featured (row r) = true -> featured (row r0) = true /\
       (user (row r0) <> u \/ excluded excl (pk r0) = true)).
Proof.
  unfold unfeature_others; intros Hin; apply in_map_iff in Hin as [r0 [<- Hr0]].
  exists r0; split; [exact Hr0|].
  destruct ((user (row r0) =? u) && featured (row r0) && negb (excluded excl (pk r0))) eqn:E;
    simpl.
  - repeat split; try reflexivity; discriminate.
  - split; [reflexivity|]; split; [reflexivity|]. intros Hf; split; [exact Hf|].
    rewrite Hf, andb_true_r in E. apply andb_false_iff in E as [E|E].
    + left; apply Nat.eqb_neq; exact E.
    + right; apply negb_false_iff; exact E.
Qed.

Lemma in_update_row r db p g :
  In r (update_row db p g) ->
  exists r0, In r0 db /\ pk r = pk r0 /\
    ((pk r0 = p /\ row r = g (row r0)) \/ (pk r0 <> p /\ r = r0)).
Proof.
  unfold update_row; intros Hin; apply in_map_iff in Hin as [r0 [<- Hr0]].
  exists r0; split; [exact Hr0|].
  destruct (pk r0 =? p) eqn:E.
  - apply Nat.eqb_eq in E; simpl; split; [auto| left; auto].
  - apply Nat.eqb_neq in E; split; [reflexivity| right; auto].
Qed.

Lemma pk_inj db r1 r2 :
  pks_unique db -> In r1 db -> In r2 db -> pk r1 = pk r2 -> r1 = r2.
Proof.
  unfold pks_unique; induction db as [|r db IH]; simpl; [tauto|].
  intros Hnd H1 H2 Hpk; inversion Hnd as [|? ? Hnin Hnd']; subst.
  destruct H1 as [<-|H1], H2 as [<-|H2]; auto.
  - exfalso; apply Hnin; rewrite Hpk; apply in_map; exact H2.
  - exfalso; apply Hnin; rewrite <- Hpk; apply in_map; exact H1.
Qed.

Lemma has_pk_false db p : has_pk db p = false -> ~ In p (map pk db).
Proof.
  unfold has_pk; intros H Hin; apply in_map_iff in Hin as [r [Hr Hin]].
  assert (existsb (fun r => pk r =? p) db = true) as Ht
    by (apply existsb_exists; exists r; split; [exact Hin| apply Nat.eqb_eq; exact Hr]).
  congruence.
Qed.

Lemma next_pk_fresh db : ~ In (next_pk db) (map pk db).
Proof.
  unfold next_pk.
  assert (forall x, In x (map pk db) -> x <= fold_right Nat.max 0 (map pk db)) as Hle.
  { induction (map pk db) as [|y ys IH]; simpl; [tauto|].
    intros x [<-|Hx]; [lia|]. specialize (IH x Hx); lia. }
  intros Hin; specialize (Hle _ Hin); lia.
Qed.

Lemma find_row_some db p l :
  find_row db p = Some l -> exists r, In r db /\ pk r = p /\ row r = l.
Proof.
  unfold find_row; destruct (find (fun r => pk r =? p) db) as [r|] eqn:E; [|discriminate].
  intros [= <-]. apply find_some in E as [Hin Hp]. apply Nat.eqb_eq in Hp.
  exists r; auto.
Qed.

(** A table whose rows each come from a row of [db] with the same key and
    owner, and are featured only if that row was, keeps the invariant. *)
Lemma inv_dominated db db' :
  map pk db' = map pk db ->
  (forall r', In r' db' -> exists r, In r db /\ pk r = pk r' /\
      user (row r) = user (row r') /\ (featured (row r') = true -> featured (row r) = true)) ->
  listing_inv db -> listing_inv db'.
Proof.
  intros Hpk Hdom [Hnd Hsf]; split; [unfold pks_unique; rewrite Hpk; exact Hnd|].
  intros r1 r2 H1 H2 Hu Hf1 Hf2.
  destruct (Hdom _ H1) as [s1 [Hs1 [Hp1 [Hu1 Hg1]]]].
  destruct (Hdom _ H2) as [s2 [Hs2 [Hp2 [Hu2 Hg2]]]].
  rewrite <- Hp1, <- Hp2. apply Hsf; auto; congruence.
Qed.

Lemma unfeature_inv db u excl : listing_inv db -> listing_inv (unfeature_others db u excl).
Proof.
  apply inv_dominated; [apply map_pk_unfeature|].
  intros r' Hin; destruct (in_unfeature_others _ _ _ _ Hin) as [r [Hr [Hp [Hu Hf]]]].
  exists r; repeat split; auto; intros H; apply Hf; exact H.
Qed.

Lemma unset_other_featured_inv db u e :
  listing_inv db -> listing_inv (unset_other_featured_for_user db u e).
Proof. apply unfeature_inv. Qed.

Lemma inv_insert db q l :
  listing_inv db -> ~ In q (map pk db) ->
  (forall r, In r db -> featured (row r) = true -> featured l = true ->
     user (row r) = user l -> False) ->
  listing_inv (db ++ [mkRow q l]).
Proof.
  intros [Hnd Hsf] Hq Hclean; split.
  - unfold pks_unique; rewrite map_app; simpl.
    eapply Permutation_NoDup; [apply Permutation_cons_append|].
    constructor; assumption.
  - intros r1 r2 H1 H2 Hu Hf1 Hf2.
    apply in_app_iff in H1 as [H1|[<-|[]]]; apply in_app_iff in H2 as [H2|[<-|[]]].
    + apply Hsf; assumption.
    + exfalso; apply (Hclean r1); auto.
    + exfalso; apply (Hclean r2); auto.
    + reflexivity.
Qed.

Lemma inv_update db p g l :
  listing_inv db ->
  (forall r, In r db -> pk r = p ->
     user (g (row r)) = user l /\ user (row r) = user l /\
     (featured (g (row r)) = true -> featured l = true \/ featured (row r) = true)) ->
  (forall r, In r db -> featured (row r) = true -> featured l = true ->
     user (row r) = user l -> pk r = p) ->
  listing_inv (update_row db p g).
Proof.
  intros [Hnd Hsf] Hnew Hclean.
  split; [unfold pks_unique; rewrite map_pk_update_row; exact Hnd|].
  intros r1 r2 H1 H2 Hu Hf1 Hf2.
  destruct (in_update_row _ _ _ _ H1) as [s1 [Hs1 [Hp1 [[Hq1 Hg1]|[Hq1 ->]]]]];
  destruct (in_update_row _ _ _ _ H2) as [s2 [Hs2 [Hp2 [[Hq2 Hg2]|[Hq2 ->]]]]].
  - congruence.
  - exfalso. destruct (Hnew s1 Hs1 Hq1) as [Hgu [Hsu Hgf]].
    rewrite Hg1 in Hu, Hf1. destruct (Hgf Hf1) as [Hl|Hs].
    + apply Hq2, (Hclean s2 Hs2 Hf2 Hl); congruence.
    + apply Hq2; rewrite <- Hq1; symmetry; apply Hsf; auto; congruence.
  - exfalso. destruct (Hnew s2 Hs2 Hq2) as [Hgu [Hsu Hgf]].
    rewrite Hg2 in Hu, Hf2. destruct (Hgf Hf2) as [Hl|Hs].
    + apply Hq1, (Hclean s1 Hs1 Hf1 Hl); congruence.
    + apply Hq1; rewrite <- Hq2; apply Hsf; auto; congruence.
  - apply Hsf; auto.
Qed.

Lemma save_inv now db i uf :
  listing_inv db -> owner_matches db i -> listing_inv (result_db (save now db i uf)).
Proof.
  intros Hinv Hown. unfold save; cbv zeta.
  set (l1 := stamp_published now (inst i)).
  set (db1 := if featured l1 then unfeature_others db (user l1) (inst_pk i) else db).
  assert (Hinv1 : listing_inv db1)
    by (unfold db1; destruct (featured l1); auto using unfeature_inv).
  assert (Hclean : forall r, In r db1 -> featured (row r) = true -> featured l1 = true ->
            user (row r) = user l1 -> excluded (inst_pk i) (pk r) = true).
  { intros r Hr Hf Hl Hu. unfold db1 in Hr; rewrite Hl in Hr.
    destruct (in_unfeature_others _ _ _ _ Hr) as [r0 [_ [Hp [Hu0 Hf0]]]].
    destruct (Hf0 Hf) as [_ [Hne|Hex]]; [congruence| rewrite Hp; exact Hex]. }
  assert (Hown1 : forall r, In r db1 -> inst_pk i = Some (pk r) -> user (row r) = user l1).
  { intros r Hr Hp. unfold l1; rewrite stamp_published_user.
    assert (exists r0, In r0 db /\ pk r0 = pk r /\ user (row r0) = user (row r))
      as [r0 [Hr0 [Hp0 Hu0]]].
    { unfold db1 in Hr; destruct (featured l1).
      - destruct (in_unfeature_others _ _ _ _ Hr) as [r0 [? [? [? _]]]]; exists r0; auto.
      - exists r; auto. }
    rewrite <- Hu0; apply Hown; [exact Hr0| congruence]. }
  clearbody db1.
  assert (Hupd : forall p, inst_pk i = Some p -> forall uf',
             listing_inv (update_row db1 p (write_fields uf' l1))).
  { intros p Hip uf'. apply (inv_update _ _ _ l1); [exact Hinv1| |].
    - intros r Hr Hp. rewrite Hip, <- Hp in Hown1. specialize (Hown1 r Hr eq_refl).
      split; [|split; [exact Hown1|]].
      + destruct (write_fields_user uf' l1 (row r)) as [H|H]; congruence.
      + intros Hf. destruct (write_fields_featured uf' l1 (row r)) as [H|H];
          rewrite H in Hf; auto.
    - intros r Hr Hf Hl Hu. specialize (Hclean r Hr Hf Hl Hu). rewrite Hip in Hclean.
      apply Nat.eqb_eq; exact Hclean. }
  destruct uf as [[|f fs]|]; [exact Hinv1| |];
    destruct (inst_pk i) as [p|] eqn:Hip; try exact Hinv1.
  - destruct (has_pk db1 p); [apply Hupd; auto| exact Hinv1].
  - destruct (has_pk db1 p) eqn:Hh; [apply Hupd; auto|].
    apply inv_insert; [exact Hinv1| apply has_pk_false; exact Hh|].
    intros r Hr Hf Hl Hu. specialize (Hclean r Hr Hf Hl Hu); simpl in Hclean.
    apply Nat.eqb_eq in Hclean. apply (has_pk_false _ _ Hh). rewrite <- Hclean.
    apply in_map; exact Hr.
  - apply inv_insert; [exact Hinv1| apply next_pk_fresh|].
    intros r Hr Hf Hl Hu. specialize (Hclean r Hr Hf Hl Hu); simpl in Hclean.
    discriminate.
Qed.

Lemma save_new now db l : featured l = false ->
  save now db (mkInstance None l) None =
  SaveOk (db ++ [mkRow (next_pk db) (stamp_published now l)]) (Some (next_pk db)).
Proof.
  intros Hf; unfold save; cbv zeta; simpl inst; simpl inst_pk.
  rewrite stamp_published_featured, Hf; reflexivity.
Qed.

Lemma map_pk_increment_views db p : map pk (increment_views db p) = map pk db.
Proof.
  unfold increment_views, update_views_count; rewrite map_map; apply map_ext; intros r.
  destruct (pk r =? p); reflexivity.
Qed.

Lemma increment_views_inv db p : listing_inv db -> listing_inv (increment_views db p).
Proof.
  apply inv_dominated; [apply map_pk_increment_views|].
  unfold increment_views, update_views_count; intros r' Hin.
  apply in_map_iff in Hin as [r [<- Hr]].
  exists r; destruct (pk r =? p); simpl; auto.
Qed.

Lemma increment_inquiries_inv db p : listing_inv db -> listing_inv (increment_inquiries db p).
Proof.
  apply inv_dominated.
  - unfold increment_inquiries; rewrite map_map; apply map_ext; intros r.
    destruct (pk r =? p); reflexivity.
  - unfold increment_inquiries; intros r' Hin; apply in_map_iff in Hin as [r [<- Hr]].
    exists r; destruct (pk r =? p); simpl; auto.
Qed.

Lemma expire_inv now db : listing_inv db -> listing_inv (fst (expire_listings_task now db)).
Proof.
  apply inv_dominated; simpl.
  - rewrite map_map; apply map_ext; intros r; destruct (expired_published now (row r)); reflexivity.
  - intros r' Hin; apply in_map_iff in Hin as [r [<- Hr]].
    exists r; destruct (expired_published now (row r)); simpl; auto.
Qed.

Lemma serializer_create_inv now db owner a :
  listing_inv db -> listing_inv (fst (serializer_create now db owner a)).
Proof.
  intros Hinv. unfold serializer_create; cbv zeta.
  set (l0 := setattrs (mkAttrs (a_status a) None (a_expires_at a)) (new_listing owner)).
  assert (Hf0 : featured l0 = false) by (unfold l0; destruct a as [[s|] b [t|]]; reflexivity).
  pose proof (save_inv now db (mkInstance None l0) None Hinv) as H1.
  rewrite save_new in H1 |- * by exact Hf0. simpl in H1.
  assert (Hinv1 : listing_inv (db ++ [mkRow (next_pk db) (stamp_published now l0)]))
    by (apply H1; intros r _ Hp; discriminate).
  destruct (match a_featured a with Some b => b | None => false end); [|exact Hinv1].
  set (l1 := set_featured true (stamp_published now l0)).
  pose proof (save_inv now _ (mkInstance (Some (next_pk db)) l1) (Some [f_featured]) Hinv1)
    as H2.
  destruct (save now _ (mkInstance (Some (next_pk db)) l1) (Some [f_featured])) eqn:E;
    simpl; [|exact Hinv].
  apply unset_other_featured_inv. apply H2.
  intros r Hr Hp; simpl in Hp; injection Hp as Hp.
  apply in_app_iff in Hr as [Hr|[<-|[]]].
  - exfalso; apply (next_pk_fresh db); rewrite Hp; apply in_map; exact Hr.
  - reflexivity.
Qed.

Lemma update_owner_matches db p l a :
  listing_inv db -> find_row db p = Some l ->
  owner_matches db (mkInstance (Some p) (setattrs a l)).
Proof.
  intros [Hnd _] Hfind r Hr Hp; simpl in *; injection Hp as Hp.
  destruct (find_row_some _ _ _ Hfind) as [r0 [Hr0 [Hp0 <-]]].
  rewrite setattrs_user, (pk_inj db r r0); auto; congruence.
Qed.

Lemma serializer_update_inv now db p a :
  listing_inv db -> listing_inv (fst (serializer_update now db p a)).
Proof.
  intros Hinv. unfold serializer_update.
  destruct (find_row db p) as [l|] eqn:Hfind; [|exact Hinv].
  pose proof (save_inv now db _ None Hinv (update_owner_matches db p l a Hinv Hfind)) as H1.
  destruct (save now db (mkInstance (Some p) (setattrs a l)) None) as [db1 s|db1];
    simpl in *; [|exact Hinv].
  destruct (match a_featured a with Some b => b | None => false end);
    [apply unset_other_featured_inv|]; exact H1.
Qed.

Lemma load_and_save_inv now db p a uf :
  listing_inv db -> listing_inv (fst (load_and_save now db p a uf)).
Proof.
  intros Hinv. unfold load_and_save.
  destruct (find_row db p) as [l|] eqn:Hfind; [|exact Hinv].
  pose proof (save_inv now db _ uf Hinv (update_owner_matches db p l a Hinv Hfind)) as H1.
  destruct (save now db (mkInstance (Some p) (setattrs a l)) uf); exact H1.
Qed.

Lemma step_inv now db o : listing_inv db -> listing_inv (step now db o).
Proof.
  destruct o; simpl.
  - apply serializer_create_inv.
  - apply serializer_update_inv.
  - apply serializer_update_inv.
  - apply load_and_save_inv.
  - apply increment_views_inv.
  - apply increment_inquiries_inv.
  - apply expire_inv.
Qed.

Lemma run_inv db trace : listing_inv db -> listing_inv (run db trace).
Proof.
  revert db; induction trace as [|[now o] rest IH]; intros db H; simpl; auto.
  apply IH, step_inv, H.
Qed.

Lemma listing_inv_nil : listing_inv [].
Proof. split; [constructor| intros r1 r2 []]. Qed.

Lemma unfeature_clean r db u excl :
  In r (unfeature_others db u excl) -> user (row r) = u -> featured (row r) = true ->
  excluded excl (pk r) = true.
Proof.
  intros Hin Hu Hf. destruct (in_unfeature_others _ _ _ _ Hin) as [r0 [_ [Hp [Hu0 Hf0]]]].
  destruct (Hf0 Hf) as [_ [Hne|Hex]]; [congruence| rewrite Hp; exact Hex].
Qed.

Lemma save_clears_others now db i uf db' p :
  save now db i uf = SaveOk db' (Some p) -> featured (inst i) = true ->
  forall r, In r db' -> user (row r) = user (inst i) -> pk r <> p -> featured (row r) = false.
Proof.
  intros Hs Hf r Hr Hu Hp. unfold save in Hs; cbv zeta in Hs.
  rewrite stamp_published_featured, Hf, stamp_published_user in Hs.
  set (db1 := unfeature_others db (user (inst i)) (inst_pk i)) in Hs.
  assert (Hcl : forall r, In r db1 -> user (row r) = user (inst i) -> featured (row r) = true ->
                 excluded (inst_pk i) (pk r) = true) by (intros; eapply unfeature_clean; eauto).
  clearbody db1.
  destruct (featured (row r)) eqn:Hfr; [exfalso|reflexivity].
  destruct uf as [[|f fs]|]; [discriminate| |];
    destruct (inst_pk i) as [q|] eqn:Hip; try discriminate.
  - destruct (has_pk db1 q); [|discriminate]. injection Hs as <- <-.
    destruct (in_update_row _ _ _ _ Hr) as [r0 [Hr0 [Hpr [[Hq _]|[Hq ->]]]]]; [congruence|].
    specialize (Hcl r0 Hr0 Hu Hfr); simpl in Hcl; apply Nat.eqb_eq in Hcl; congruence.
  - destruct (has_pk db1 q).
    + injection Hs as <- <-.
      destruct (in_update_row _ _ _ _ Hr) as [r0 [Hr0 [Hpr [[Hq _]|[Hq ->]]]]]; [congruence|].
      specialize (Hcl r0 Hr0 Hu Hfr); simpl in Hcl; apply Nat.eqb_eq in Hcl; congruence.
    + injection Hs as <- <-. apply in_app_iff in Hr as [Hr|[<-|[]]]; [|simpl in Hp; congruence].
      specialize (Hcl r Hr Hu Hfr); simpl in Hcl; apply Nat.eqb_eq in Hcl; congruence.
  - injection Hs as <- <-. apply in_app_iff in Hr as [Hr|[<-|[]]]; [|simpl in Hp; congruence].
    specialize (Hcl r Hr Hu Hfr); simpl in Hcl; discriminate.
Qed.

Lemma create_clears_others now db owner a db' p :
  serializer_create now db owner a = (db', Some p) -> a_featured a = Some true ->
  forall r, In r db' -> user (row r) = owner -> pk r <> p -> featured (row r) = false.
Proof.
  intros Hc Ha r Hr Hu Hp. unfold serializer_create in Hc; cbv zeta in Hc.
  set (l0 := setattrs (mkAttrs (a_status a) None (a_expires_at a)) (new_listing owner)) in Hc.
  assert (Hf0 : featured l0 = false) by (unfold l0; destruct a as [[s|] b [t|]]; reflexivity).
  rewrite save_new in Hc by exact Hf0. rewrite Ha in Hc.
  destruct (save now _ _ _); [|discriminate]. injection Hc as <- <-.
  unfold unset_other_featured_for_user, next_pk in Hr; simpl in Hr.
  destruct (featured (row r)) eqn:Hfr; [exfalso|reflexivity].
  pose proof (unfeature_clean _ _ _ _ Hr Hu Hfr) as Hcl; simpl in Hcl.
  apply Nat.eqb_eq in Hcl. apply Hp. rewrite Hcl. reflexivity.
Qed.

Lemma update_clears_others now db p a db' l :
  serializer_update now db p a = (db', Some p) -> a_featured a = Some true ->
  find_row db p = Some l ->
  forall r, In r db' -> user (row r) = user l -> pk r <> p -> featured (row r) = false.
Proof.
  intros Hc Ha Hfind r Hr Hu Hp. unfold serializer_update in Hc. rewrite Hfind, Ha in Hc.
  destruct (save now _ _ _); [|discriminate]. injection Hc as <-.
  unfold unset_other_featured_for_user in Hr.
  destruct (featured (row r)) eqn:Hfr; [exfalso|reflexivity].
  rewrite <- (setattrs_user a l) in Hu.
  pose proof (unfeature_clean _ _ _ _ Hr Hu Hfr) as Hcl.
  destruct (p =? 0); simpl in Hcl; [discriminate|].
  apply Nat.eqb_eq in Hcl; congruence.
Qed.

(** C1.  At most one listing of an owner is featured: every sequence of
    creates, updates and saves (and the counter and expiry writes) keeps the
    listing table at one featured listing per owner at most; and a save, a
    create or an update that sets [featured=true] on a listing of owner [U]
    leaves no other listing of [U] featured. *)
Theorem featured_listing_unique :
  (forall db trace, listing_inv db -> listing_inv (run db trace)) /\
  (forall now db i uf db' p,
     save now db i uf = SaveOk db' (Some p) -> featured (inst i) = true ->
     forall r, In r db' -> user (row r) = user (inst i) -> pk r <> p ->
       featured (row r) = false) /\
  (forall now db owner a db' p,
     serializer_create now db owner a = (db', Some p) -> a_featured a = Some true ->
     forall r, In r db' -> user (row r) = owner -> pk r <> p -> featured (row r) = false) /\
  (forall now db p a db' l,
     serializer_update now db p a = (db', Some p) -> a_featured a = Some true ->
     find_row db p = Some l ->
     forall r, In r db' -> user (row r) = user l -> pk r <> p -> featured (row r) = false).
Proof.
  split; [exact run_inv|].
  split; [exact save_clears_others|].
  split; [exact create_clears_others| exact update_clears_others].
Qed.

(** Two featured creates by owner 7 then an update featuring the first. *)
Lemma featured_listing_unique_witness :
  listing_inv (run [] [(1%Z, OpCreate 7 featured_on); (2%Z, OpCreate 7 featured_on);
                       (3%Z, OpUpdate 1 featured_on)]) /\
  List.length (filter (fun r => featured (row r))
    (run [] [(1%Z, OpCreate 7 featured_on); (2%Z, OpCreate 7 featured_on);
             (3%Z, OpUpdate 1 featured_on)])) = 1.
Proof.
  split; [apply (proj1 featured_listing_unique); exact listing_inv_nil| vm_compute; reflexivity].
Defined.

End ListingFacts.

(* ------------------------------------------------------------------------- *)
(** ** Listing retrieve: view counting *)

Module ListingViewFacts.
Import Listings ListingViews.

Lemma find_row_update_views db p e q :
  find_row (update_views_count db p e) q =
  option_map (fun l => if q =? p then set_views_count (eval_expr e (views_count l)) l else l)
    (find_row db q).
Proof.
  unfold find_row, update_views_count.
  induction db as [|r db IH]; simpl; [reflexivity|].
  destruct (pk r =? p) eqn:Ep; simpl.
  - destruct (pk r =? q) eqn:Eq; simpl.
    + apply Nat.eqb_eq in Ep, Eq; subst; rewrite Nat.eqb_refl; reflexivity.
    + exact IH.
  - destruct (pk r =? q) eqn:Eq; simpl.
    + apply Nat.eqb_eq in Eq; subst; rewrite Ep; reflexivity.
    + exact IH.
Qed.

Lemma retrieve_published st req p l :
  find_row (listings st) p = Some l -> status l = PUBLISHED ->
  retrieve st req p =
  (mkStore (update_views_count (listings st) p (F_plus 1)) (jobs st ++ [mkViewJob p req])
     (views_updates st ++ [(p, F_plus 1)]),
   Ok200 (set_views_count (views_count l + 1) l)).
Proof.
  intros Hf Hs. unfold retrieve. rewrite Hf. unfold retrieve_visible. rewrite Hs. simpl.
  unfold refresh_views, increment_views_st, increment_views_expr; simpl.
  rewrite find_row_update_views, Hf; simpl. rewrite Nat.eqb_refl; simpl.
  reflexivity.
Qed.

Lemma retrieve_n_published st req p l n :
  find_row (listings st) p = Some l -> status l = PUBLISHED ->
  find_row (listings (retrieve_n st req p n)) p = Some (set_views_count (views_count l + n) l) /\
  jobs (retrieve_n st req p n) = jobs st ++ repeat (mkViewJob p req) n.
Proof.
  revert st l. induction n as [|n IH]; intros st l Hf Hs; simpl.
  - rewrite Hf, app_nil_r, Nat.add_0_r. split; [|reflexivity].
    destruct l; reflexivity.
  - rewrite (retrieve_published st req p l Hf Hs); simpl.
    assert (Hf' : find_row (update_views_count (listings st) p (F_plus 1)) p =
                  Some (set_views_count (views_count l + 1) l)).
    { rewrite find_row_update_views, Hf; simpl; rewrite Nat.eqb_refl; reflexivity. }
    destruct (IH (mkStore (update_views_count (listings st) p (F_plus 1))
                   (jobs st ++ [mkViewJob p req]) (views_updates st ++ [(p, F_plus 1)]))
                 _ Hf' Hs) as [H1 H2].
    rewrite H1, H2. simpl. split.
    + f_equal. unfold set_views_count; simpl. f_equal. lia.
    + rewrite <- app_assoc. reflexivity.
Qed.

(** C6: a retrieve of a published listing issues one relative UPDATE
    [views_count = F("views_count") + 1] on that row, leaves the other rows
    alone, enqueues exactly one view job and answers with the incremented
    count; [n] retrieves add exactly [n] and enqueue [n] jobs; a retrieve of
    a listing that is not published (shown to its owner) changes nothing and
    enqueues nothing. *)
Theorem retrieve_increments_views :
  (forall st req p l,
     find_row (listings st) p = Some l -> status l = PUBLISHED ->
     retrieve st req p =
     (mkStore (update_views_count (listings st) p (F_plus 1)) (jobs st ++ [mkViewJob p req])
        (views_updates st ++ [(p, F_plus 1)]),
      Ok200 (set_views_count (views_count l + 1) l)) /\
     find_row (update_views_count (listings st) p (F_plus 1)) p =
       Some (set_views_count (views_count l + 1) l) /\
     (forall q, q <> p -> find_row (update_views_count (listings st) p (F_plus 1)) q =
                          find_row (listings st) q)) /\
  (forall st req p l n,
     find_row (listings st) p = Some l -> status l = PUBLISHED ->
     find_row (listings (retrieve_n st req p n)) p =
       Some (set_views_count (views_count l + n) l) /\
     List.length (jobs (retrieve_n st req p n)) = List.length (jobs st) + n) /\
  (forall st req p l,
     find_row (listings st) p = Some l -> status l <> PUBLISHED ->
     fst (retrieve st req p) = st /\
     (retrieve_visible req l = true -> snd (retrieve st req p) = Ok200 l)).
Proof.
  split; [|split].
  - intros st req p l Hf Hs. split; [exact (retrieve_published st req p l Hf Hs)|]. split.
    + rewrite find_row_update_views, Hf; simpl; rewrite Nat.eqb_refl; reflexivity.
    + intros q Hq. rewrite find_row_update_views.
      apply Nat.eqb_neq in Hq. rewrite Hq. destruct (find_row (listings st) q); reflexivity.
  - intros st req p l n Hf Hs. destruct (retrieve_n_published st req p l n Hf Hs) as [H1 H2].
    split; [exact H1|]. rewrite H2, length_app, repeat_length. reflexivity.
  - intros st req p l Hf Hs. unfold retrieve. rewrite Hf.
    assert (Hb : Status_eqb (status l) PUBLISHED = false)
      by (destruct (status l); simpl; congruence).
    rewrite Hb. destruct (retrieve_visible req l); simpl; auto; split; [reflexivity|discriminate].
Qed.

(** Three anonymous retrieves of a published listing with 41 views. *)
Lemma retrieve_increments_views_witness :
  find_row (listings (retrieve_n (mkStore [mkRow 5 shown_listing] [] []) None 5 3)) 5 =
    Some (set_views_count 44 shown_listing) /\
  List.length (jobs (retrieve_n (mkStore [mkRow 5 shown_listing] [] []) None 5 3)) = 3.
Proof.
  destruct (proj1 (proj2 retrieve_increments_views)
              (mkStore [mkRow 5 shown_listing] [] []) None 5 shown_listing 3
              eq_refl eq_refl) as [H1 H2].
  split; [exact H1| exact H2].
Defined.

End ListingViewFacts.

(* ------------------------------------------------------------------------- *)
(** ** The expire-listings job *)

Module ExpireFacts.
Import Listings.

Lemma expired_published_iff now l :
  expired_published now l = true <->
  status l = PUBLISHED /\ exists t, expires_at l = Some t /\ (t <= now)%Z.
Proof.
  unfold expired_published. destruct (expires_at l) as [t|]; split.
  - intros H. apply andb_true_iff in H as [H1 H2]. apply Z.leb_le in H1.
    split; [destruct (status l); simpl in H2; congruence|]. exists t; auto.
  - intros [Hs [t' [Ht Hle]]]. injection Ht as <-. rewrite Hs. apply Z.leb_le in Hle.
    rewrite Hle. reflexivity.
  - discriminate.
  - intros [_ [t [Ht _]]]. discriminate.
Qed.

Lemma expire_map now db : fst (expire_listings_task now db) = map (archive_step now) db.
Proof. reflexivity. Qed.

Lemma changed_count now db :
  List.length (filter (fun '(a, b) => negb (Status_eqb (status (row a)) (status (row b))))
                 (combine db (map (archive_step now) db))) =
  List.length (filter (fun r => expired_published now (row r)) db).
Proof.
  induction db as [|r db IH]; simpl; [reflexivity|].
  unfold archive_step at 1. destruct (expired_published now (row r)) eqn:E; simpl.
  - apply expired_published_iff in E as [Hs _]. rewrite Hs. simpl. f_equal. exact IH.
  - destruct (status (row r)); simpl; exact IH.
Qed.

Lemma second_run_idle now now2 db :
  (forall r, In r (fst (expire_listings_task now db)) -> status (row r) = PUBLISHED ->
     forall t, expires_at (row r) = Some t -> (t <= now2)%Z -> (t <= now)%Z) ->
  forall r, In r (fst (expire_listings_task now db)) -> expired_published now2 (row r) = false.
Proof.
  intros H r Hin. destruct (expired_published now2 (row r)) eqn:E; [|reflexivity].
  exfalso. apply expired_published_iff in E as [Hs [t [Ht Hle]]].
  pose proof (H r Hin Hs t Ht Hle) as Hnow.
  rewrite expire_map in Hin. apply in_map_iff in Hin as [r0 [<- Hr0]].
  unfold archive_step in *. destruct (expired_published now (row r0)) eqn:E0.
  - simpl in Hs. discriminate.
  - assert (expired_published now (row r0) = true); [|congruence].
    apply expired_published_iff. split; [exact Hs|]. exists t; auto.
Qed.

(** C8: one run of [expire_listings_task] at [now] archives exactly the rows
    that are published with [expires_at <= now], keeps every other row as it
    was, and returns the number of rows whose status it changed; a second
    run at [now2 >= now], when no published listing has an expiry in
    [(now, now2]], changes nothing and returns 0. *)
Theorem expire_listings_exact_idempotent now db :
  let '(db', n) := expire_listings_task now db in
  List.length db' = List.length db /\
  (forall i r, nth_error db i = Some r ->
     (status (row r) = PUBLISHED /\ (exists t, expires_at (row r) = Some t /\ (t <= now)%Z) ->
      nth_error db' i = Some (mkRow (pk r) (set_status ARCHIVED (row r)))) /\
     (~ (status (row r) = PUBLISHED /\ (exists t, expires_at (row r) = Some t /\ (t <= now)%Z)) ->
      nth_error db' i = Some r)) /\
  n = List.length (filter (fun '(a, b) => negb (Status_eqb (status (row a)) (status (row b))))
                    (combine db db')) /\
  (forall now2, (now <= now2)%Z ->
     (forall r, In r db' -> status (row r) = PUBLISHED ->
        forall t, expires_at (row r) = Some t -> (t <= now2)%Z -> (t <= now)%Z) ->
     expire_listings_task now2 db' = (db', 0)).
Proof.
  destruct (expire_listings_task now db) as [db' n] eqn:E.
  assert (Hdb : db' = map (archive_step now) db)
    by (rewrite <- (expire_map now db), E; reflexivity).
  assert (Hn : n = List.length (filter (fun r => expired_published now (row r)) db))
    by (injection E as _ <-; reflexivity).
  split; [|split; [|split]].
  - rewrite Hdb, length_map. reflexivity.
  - intros i r Hi. rewrite Hdb, nth_error_map, Hi. simpl. unfold archive_step. split.
    + intros Hp. apply expired_published_iff in Hp. rewrite Hp. reflexivity.
    + intros Hp. destruct (expired_published now (row r)) eqn:Ex; [|reflexivity].
      apply expired_published_iff in Ex. contradiction.
  - rewrite Hn, Hdb. symmetry. apply changed_count.
  - intros now2 _ Hnew.
    assert (Hid : forall r, In r db' -> expired_published now2 (row r) = false).
    { intros r Hr. apply (second_run_idle now now2 db); rewrite E; simpl; auto. }
    unfold expire_listings_task. f_equal.
    + clear E Hdb Hn Hnew. induction db' as [|r db' IH]; simpl; [reflexivity|].
      rewrite (Hid r (or_introl eq_refl)). f_equal. apply IH.
      intros r' Hr'. apply Hid. right. exact Hr'.
    + clear E Hdb Hn Hnew. induction db' as [|r db' IH]; simpl; [reflexivity|].
      rewrite (Hid r (or_introl eq_refl)). apply IH.
      intros r' Hr'. apply Hid. right. exact Hr'.
Qed.

(** Run at 10 archives row 1 only; a second run at 12 archives nothing. *)
Lemma expire_listings_exact_idempotent_witness :
  snd (expire_listings_task 10 expiring_table) = 1 /\
  expire_listings_task 12 (fst (expire_listings_task 10 expiring_table)) =
    (fst (expire_listings_task 10 expiring_table), 0).
Proof.
  pose proof (expire_listings_exact_idempotent 10 expiring_table) as H.
  destruct (expire_listings_task 10 expiring_table) as [db' n] eqn:E.
  destruct H as [_ [_ [Hn Hsecond]]]. simpl. split.
  - rewrite Hn. vm_compute in E. injection E as <- <-. vm_compute. reflexivity.
  - apply Hsecond; [lia|].
    vm_compute in E. injection E as <- <-.
    intros r Hr Hs t Ht Hle. simpl in Hr.
    destruct Hr as [<-|[<-|[<-|[<-|[]]]]]; simpl in Hs, Ht; try discriminate;
      injection Ht as <-; lia.
Defined.

End ExpireFacts.

(* ------------------------------------------------------------------------- *)
(** ** Inquiries *)

Module InquiryFacts.
Import Inquiries.

Lemma find_put_inquiry st p i j :
  find_inquiry st p = Some i -> find_inquiry (put_inquiry st p j) p = Some j.
Proof.
  unfold find_inquiry, put_inquiry; simpl.
  induction (inquiries st) as [|r rs IH]; simpl; [discriminate|].
  destruct (ipk r =? p) eqn:E; simpl.
  - intros _. rewrite Nat.eqb_refl. reflexivity.
  - rewrite E. exact IH.
Qed.

(** C9: creating an inquiry adds one inquiry for the listing but issues no
    statement on the listing table, so the persisted [inquiries_count] of
    the listing stays as it was. *)
Theorem create_inquiry_keeps_inquiries_count st u lid st' p l :
  create_inquiry st u lid = (st', Created p) ->
  Listings.find_row (listings st) lid = Some l ->
  Listings.find_row (listings st') lid = Some l /\
  inquiries_for st' lid = S (inquiries_for st lid).
Proof.
  intros Hc Hf. unfold create_inquiry in Hc. rewrite Hf in Hc.
  destruct (negb (Listings.Status_eqb (Listings.status l) Listings.PUBLISHED)); [discriminate|].
  destruct (Listings.user l =? u); [discriminate|].
  injection Hc as <- _. simpl. split; [exact Hf|].
  unfold inquiries_for; simpl. rewrite filter_app, length_app; simpl.
  rewrite Nat.eqb_refl; simpl. lia.
Qed.

(** User 3 sends an inquiry on listing 1 (owned by user 2): one inquiry for
    the listing, [inquiries_count] still 0. *)
Lemma create_inquiry_keeps_inquiries_count_witness :
  create_inquiry one_listing_store 3 1 = (fst (create_inquiry one_listing_store 3 1), Created 1) /\
  Listings.find_row (listings (fst (create_inquiry one_listing_store 3 1))) 1 =
    Some (Listings.mkListing 2 Listings.PUBLISHED false 0 0 (Some 0%Z) None) /\
  inquiries_for (fst (create_inquiry one_listing_store 3 1)) 1 = 1.
Proof.
  destruct (create_inquiry_keeps_inquiries_count one_listing_store 3 1
              (fst (create_inquiry one_listing_store 3 1)) 1
              (Listings.mkListing 2 Listings.PUBLISHED false 0 0 (Some 0%Z) None)
              eq_refl eq_refl) as [H1 H3].
  split; [reflexivity|]. split; [exact H1|]. rewrite H3. reflexivity.
Defined.

(** C4: a replied inquiry that was never read goes back to [READ] when its
    recipient retrieves it; the recipient can reply without a prior
    retrieve, so the status moves from [REPLIED] back to [READ]. *)
Theorem replied_inquiry_reverts_to_read now st p i :
  find_inquiry st p = Some i -> status i = REPLIED -> read_at i = None ->
  find_inquiry (fst (retrieve now st (to_user i) p)) p =
    Some (mkInquiry (listing i) (from_user i) (to_user i) READ (Some now) (replied_at i)) /\
  rank READ < rank (status i).
Proof.
  intros Hf Hs Hr. unfold retrieve. rewrite Hf.
  unfold participant. rewrite (Nat.eqb_refl (to_user i)), orb_true_r. simpl.
  unfold is_read. rewrite Hr. simpl. split.
  - unfold mark_as_read, is_read. rewrite Hr. simpl.
    apply (find_put_inquiry st p i). exact Hf.
  - rewrite Hs. simpl. lia.
Qed.

(** Recipient 2 replies to inquiry 1 at time 1, then opens it at time 2. *)
Lemma replied_inquiry_reverts_to_read_witness :
  find_inquiry (inq_run pending_store [(1%Z, DoReply 2 1 "ok"%string)]) 1 =
    Some (mkInquiry 1 1 2 REPLIED None (Some 1%Z)) /\
  find_inquiry (inq_run pending_store [(1%Z, DoReply 2 1 "ok"%string); (2%Z, DoRetrieve 2 1)]) 1 =
    Some (mkInquiry 1 1 2 READ (Some 2%Z) (Some 1%Z)).
Proof.
  split; [vm_compute; reflexivity|].
  exact (proj1 (replied_inquiry_reverts_to_read 2%Z
                  (inq_run pending_store [(1%Z, DoReply 2 1 "ok"%string)]) 1
                  (mkInquiry 1 1 2 REPLIED None (Some 1%Z)) eq_refl eq_refl eq_refl)).
Defined.

End InquiryFacts.

(* ------------------------------------------------------------------------- *)
(** ** Reported content moderation *)

Module AdminPanelFacts.
Import AdminPanel.

Lemma find_put_report st p r r' :
  find_report st p = Some r -> find_report (put_report st p r') p = Some r'.
Proof.
  unfold find_report, put_report; simpl.
  induction (reports st) as [|x xs IH]; simpl; [discriminate|].
  destruct (rpk x =? p) eqn:E; simpl.
  - intros _. rewrite Nat.eqb_refl. reflexivity.
  - rewrite E. exact IH.
Qed.

Lemma review_persists target now st who p notes r :
  req_is_staff who = true -> find_report st p = Some r ->
  find_report (fst (review target now st who p notes)) p =
    Some (mkReport REVIEWED (Some (req_id who)) (Some now) notes) /\
  snd (review target now st who p notes) = Error500 "AttributeError" /\
  action_log (fst (review target now st who p notes)) = action_log st.
Proof.
  intros Hs Hf. unfold review. rewrite Hs, Hf. simpl. split; [|split; reflexivity].
  apply (find_put_report st p r). exact Hf.
Qed.

(** C3: when an admin resolves (or dismisses) an existing report, the row
    saved is the one [mark_as_reviewed] wrote: status [REVIEWED], not
    [RESOLVED] (nor [DISMISSED]), with the admin and the time stamped; the
    log call after it then raises [AttributeError], so the request fails and
    no log entry is written. *)
Theorem resolve_dismiss_persist_reviewed now st who p notes r :
  req_is_staff who = true -> find_report st p = Some r ->
  find_report (fst (resolve now st who p notes)) p =
    Some (mkReport REVIEWED (Some (req_id who)) (Some now) notes) /\
  snd (resolve now st who p notes) = Error500 "AttributeError" /\
  action_log (fst (resolve now st who p notes)) = action_log st /\
  find_report (fst (dismiss now st who p notes)) p =
    Some (mkReport REVIEWED (Some (req_id who)) (Some now) notes) /\
  snd (dismiss now st who p notes) = Error500 "AttributeError" /\
  action_log (fst (dismiss now st who p notes)) = action_log st.
Proof.
  intros Hs Hf.
  destruct (review_persists RESOLVED now st who p notes r Hs Hf) as [A [B C]].
  destruct (review_persists DISMISSED now st who p notes r Hs Hf) as [D [E F]].
  unfold resolve, dismiss. repeat split; assumption.
Qed.

(** Staff user 9 resolves report 1 at time 100. *)
Lemma resolve_dismiss_persist_reviewed_witness :
  find_report (fst (resolve 100 pending_report_store (mkRequester 9 true) 1 "spam listing"%string)) 1 =
    Some (mkReport REVIEWED (Some 9) (Some 100%Z) "spam listing"%string).
Proof.
  exact (proj1 (resolve_dismiss_persist_reviewed 100 pending_report_store (mkRequester 9 true) 1
                  "spam listing"%string (mkReport R_PENDING None None EmptyString) eq_refl eq_refl)).
Defined.

End AdminPanelFacts.

(* ------------------------------------------------------------------------- *)
(** ** One-time password verification *)

Module OTPFacts.
Import OTP.

Lemma latest_fold_spec rows acc :
  match fold_left latest_step rows acc with
  | None => acc = None /\ rows = []
  | Some r => (acc = Some r \/ In r rows) /\
              (forall b, acc = Some b -> (created_at (otp b) <= created_at (otp r))%Z) /\
              (forall r', In r' rows -> (created_at (otp r') <= created_at (otp r))%Z)
  end.
Proof.
  revert acc. induction rows as [|x xs IH]; intros acc; simpl.
  - destruct acc as [b|]; [|auto]. split; [auto|]. split; [|intros _ []].
    intros b' Hb. injection Hb as <-. lia.
  - specialize (IH (latest_step acc x)).
    destruct (fold_left latest_step xs (latest_step acc x)) as [r|] eqn:E.
    + destruct IH as [Hin [Hacc Hall]].
      unfold latest_step in *. destruct acc as [b|].
      * destruct (created_at (otp b) <? created_at (otp x))%Z eqn:Hlt.
        -- apply Z.ltb_lt in Hlt.
           split; [destruct Hin as [Hx|Hx]; [injection Hx as ->; right; left; reflexivity|right; right; exact Hx]|].
           split.
           ++ intros b' Hb'. injection Hb' as <-. specialize (Hacc x eq_refl). lia.
           ++ intros r' [<-|Hr']; [exact (Hacc x eq_refl)|exact (Hall r' Hr')].
        -- apply Z.ltb_ge in Hlt.
           split; [destruct Hin as [Hx|Hx]; [left; exact Hx|right; right; exact Hx]|].
           split.
           ++ intros b' Hb'. injection Hb' as <-. exact (Hacc b eq_refl).
           ++ intros r' [<-|Hr']; [specialize (Hacc b eq_refl); lia|exact (Hall r' Hr')].
      * split; [destruct Hin as [Hx|Hx]; [injection Hx as ->; right; left; reflexivity|right; right; exact Hx]|].
        split; [discriminate|].
        intros r' [<-|Hr']; [exact (Hacc x eq_refl)|exact (Hall r' Hr')].
    + destruct IH as [H _]. unfold latest_step in H.
      destruct acc as [b|]; [destruct (created_at (otp b) <? created_at (otp x))%Z|]; discriminate.
Qed.

Lemma latest_spec rows r :
  latest rows = Some r -> In r rows /\ forall r', In r' rows -> (created_at (otp r') <= created_at (otp r))%Z.
Proof.
  intros H. pose proof (latest_fold_spec rows None) as S. unfold latest in H.
  change (fun acc r => match acc with
                       | None => Some r
                       | Some b => if (created_at (otp b) <? created_at (otp r))%Z then Some r else acc
                       end) with latest_step in H.
  rewrite H in S. destruct S as [[Hn|Hin] [_ Hall]]; [discriminate|auto].
Qed.

Lemma latest_none rows : latest rows = None -> rows = [].
Proof.
  intros H. pose proof (latest_fold_spec rows None) as S. unfold latest in H.
  change (fun acc r => match acc with
                       | None => Some r
                       | Some b => if (created_at (otp b) <? created_at (otp r))%Z then Some r else acc
                       end) with latest_step in H.
  rewrite H in S. apply S.
Qed.

Lemma latest_map_use p rows :
  latest (map (use_row p) rows) = option_map (use_row p) (latest rows).
Proof.
  unfold latest.
  change (fun acc r => match acc with
                       | None => Some r
                       | Some b => if (created_at (otp b) <? created_at (otp r))%Z then Some r else acc
                       end) with latest_step.
  assert (Hc : forall r, created_at (otp (use_row p r)) = created_at (otp r))
    by (intros r; unfold use_row; destruct (opk r =? p); reflexivity).
  assert (forall acc, fold_left latest_step (map (use_row p) rows) (option_map (use_row p) acc) =
                      option_map (use_row p) (fold_left latest_step rows acc)) as G.
  { induction rows as [|x xs IH]; intros acc; simpl; [reflexivity|].
    rewrite <- IH. f_equal. destruct acc as [b|]; simpl; [|reflexivity].
    rewrite !Hc. destruct (created_at (otp b) <? created_at (otp x))%Z; reflexivity. }
  exact (G None).
Qed.

Lemma candidates_mark_used tbl e c pu p :
  candidates (mark_used tbl p) e c pu = map (use_row p) (candidates tbl e c pu).
Proof.
  unfold candidates, mark_used. fold (use_row p).
  induction tbl as [|r tbl IH]; simpl; [reflexivity|].
  assert (Hm : otp (use_row p r) = otp r \/
               otp (use_row p r) = mkOTP (email (otp r)) (code (otp r)) (purpose (otp r))
                                         (expires_at (otp r)) true (created_at (otp r)))
    by (unfold use_row; destruct (opk r =? p); [right|left]; reflexivity).
  assert (Hmatch : forall e' c', matches e' c' pu (otp (use_row p r)) = matches e' c' pu (otp r))
    by (intros; destruct Hm as [-> | ->]; reflexivity).
  rewrite Hmatch. destruct (matches _ _ pu (otp r)); simpl; rewrite IH; reflexivity.
Qed.

(** C5: with the candidates the lookup of [OTPVerifySerializer] filters
    (email lower-cased and stripped and compared case-insensitively, code
    stripped, same purpose): no candidate fails as invalid input ("Invalid
    OTP code.", or the code field's length error);
    otherwise the row checked is a candidate created no earlier than any
    other; if it is used or past expiry the attempt fails with "OTP has
    expired or already used." and changes nothing; a successful verification
    marks that row used, and verifying the same triple again, at any time,
    fails with "expired or already used". *)
Theorem otp_verify_latest_once :
  (forall now tbl e c pu,
     candidates tbl e c pu = [] -> verify now tbl e c pu = (tbl, InvalidCode)) /\
  (forall now tbl e c pu tbl' res,
     verify now tbl e c pu = (tbl', res) -> res <> InvalidCode ->
     exists r, latest (candidates tbl e c pu) = Some r /\ In r (candidates tbl e c pu) /\
       (forall r', In r' (candidates tbl e c pu) -> (created_at (otp r') <= created_at (otp r))%Z) /\
       (is_valid now (otp r) = false -> tbl' = tbl /\ res = ExpiredOrUsed) /\
       (is_valid now (otp r) = true -> res = Verified (opk r))) /\
  (forall now now' tbl e c pu tbl' p,
     verify now tbl e c pu = (tbl', Verified p) ->
     verify now' tbl' e c pu = (tbl', ExpiredOrUsed)).
Proof.
  split; [|split].
  - intros now tbl e c pu H. unfold verify. rewrite H.
    destruct (6 <? String.length (PyStr.strip c)); reflexivity.
  - intros now tbl e c pu tbl' res Hv Hres. unfold verify in Hv.
    destruct (6 <? String.length (PyStr.strip c)); [injection Hv as _ <-; congruence|].
    destruct (latest (candidates tbl e c pu)) as [r|] eqn:El.
    + exists r. destruct (latest_spec _ _ El) as [Hin Hall].
      split; [reflexivity|]. split; [exact Hin|]. split; [exact Hall|].
      split; intros Hvld; rewrite Hvld in Hv; injection Hv as <- <-; auto.
    + injection Hv as _ <-. congruence.
  - intros now now' tbl e c pu tbl' p Hv. unfold verify in Hv |- *.
    destruct (6 <? String.length (PyStr.strip c)); [discriminate|].
    destruct (latest (candidates tbl e c pu)) as [r|] eqn:El; [|discriminate].
    destruct (is_valid now (otp r)); [|discriminate].
    injection Hv as <- <-.
    rewrite candidates_mark_used, latest_map_use, El. simpl.
    unfold use_row. rewrite Nat.eqb_refl. unfold is_valid. simpl. reflexivity.
Qed.

(** Code 123456 sent twice to the same address: the later row (pk 2) is
    checked, verified once, and refused the second time. *)
Lemma otp_verify_latest_once_witness :
  verify 60 otp_table " Ana@Example.com" "123456 " REGISTRATION =
    (mark_used otp_table 2, Verified 2) /\
  verify 61 (mark_used otp_table 2) "ana@example.com" "123456" REGISTRATION =
    (mark_used otp_table 2, ExpiredOrUsed) /\
  verify 60 otp_table "ana@example.com" "654321" REGISTRATION = (otp_table, InvalidCode).
Proof.
  assert (H1 : verify 60 otp_table " Ana@Example.com" "123456 " REGISTRATION =
               (mark_used otp_table 2, Verified 2)) by (vm_compute; reflexivity).
  split; [exact H1|]. split.
  - assert (verify 61 (mark_used otp_table 2) " Ana@Example.com" "123456 " REGISTRATION =
            (mark_used otp_table 2, ExpiredOrUsed)) as H2
      by exact (proj2 (proj2 otp_verify_latest_once) 60%Z 61%Z otp_table _ _ _ _ _ H1).
    vm_compute in H2 |- *. exact H2.
  - apply (proj1 otp_verify_latest_once). vm_compute. reflexivity.
Defined.

End OTPFacts.

(* ------------------------------------------------------------------------- *)
(** ** Registration *)

Module AccountsFacts.
Import Accounts.

(** C2: [UserRegistrationSerializer] names [full_name] in [Meta.fields],
    which is neither declared on it nor an attribute of [User], so every
    registration fails while the serializer builds its fields, with
    [ImproperlyConfigured] (a server error, not a validation error) and no
    user; and its [validate] never looks at [role]: with the field set
    repaired, a request with role [ADMIN] is judged exactly as the same
    request with any other role, and [create] stores the role given. *)
Theorem register_admin_role_not_rejected :
  (forall vp now otps users d,
     register vp now otps users d = (users, ImproperlyConfigured "full_name"%string)) /\
  (forall vp now otps d r,
     registration_validate vp now otps (set_role r d) = registration_validate vp now otps d) /\
  (forall users d, role (snd (registration_create users (set_role (Some ADMIN) d))) = ADMIN) /\
  (forall users d, role (snd (registration_create users (set_role (Some SUPER_ADMIN) d))) = SUPER_ADMIN).
Proof.
  split; [|split; [|split]].
  - intros. reflexivity.
  - intros vp now otps d r. destruct d; reflexivity.
  - intros users d. reflexivity.
  - intros users d. reflexivity.
Qed.

End AccountsFacts.

(* ------------------------------------------------------------------------- *)
(** ** Global search *)

Module SearchFacts.
Import CoreSearch.

(** C7: for every query that is non-blank after [strip()], [GlobalSearchView]
    raises [NameError] on [ListingSerializer] (only [ListingListSerializer]
    and [CategorySerializer] are imported), so no result is returned; a
    blank or missing query gives 400. *)
Theorem global_search_name_error db q :
  (PyStr.strip q <> EmptyString -> global_search db (Some q) = NameError "ListingSerializer"%string) /\
  (PyStr.strip q = EmptyString -> global_search db (Some q) = Bad400) /\
  global_search db None = Bad400.
Proof.
  split; [|split].
  - intros Hq. unfold global_search. apply String.eqb_neq in Hq. rewrite Hq. reflexivity.
  - intros Hq. unfold global_search. rewrite Hq. reflexivity.
  - reflexivity.
Qed.

(** [GET /search?q=excavator] on a store where every section has a match. *)
Lemma global_search_name_error_witness :
  PyStr.strip "excavator" <> EmptyString /\
  global_search search_db (Some "excavator"%string) = NameError "ListingSerializer"%string.
Proof.
  assert (H : PyStr.strip "excavator" <> EmptyString) by (vm_compute; discriminate).
  split; [exact H|exact (proj1 (global_search_name_error search_db "excavator") H)].
Defined.

End SearchFacts.

(* ------------------------------------------------------------------------- *)
(** ** The profile endpoints *)

Module ProfileFacts.
Import Accounts.

Lemma find_user_uid users k u : find_user users k = Some u -> uid u = k.
Proof.
  unfold find_user. intros H. apply find_some in H as [_ H]. apply Nat.eqb_eq. exact H.
Qed.

Lemma find_user_map_other users k saved k' :
  uid saved = k -> k' <> k ->
  find_user (map (fun u => if uid u =? k then saved else u) users) k' = find_user users k'.
Proof.
  intros Hs Hk. unfold find_user. induction users as [|u us IH]; simpl; [reflexivity|].
  destruct (uid u =? k) eqn:E; simpl.
  - apply Nat.eqb_eq in E. rewrite Hs.
    assert (Hf : (k =? k') = false) by (apply Nat.eqb_neq; congruence).
    assert (Hg : (uid u =? k') = false) by (apply Nat.eqb_neq; congruence).
    rewrite Hf, Hg. exact IH.
  - destruct (uid u =? k'); [reflexivity|exact IH].
Qed.

(** C10: whatever the serializer does, the payload, the action and the
    identifier in the URL, a profile request changes no user record but the
    requester's own, answers only with the requester's record, and does not
    depend on the URL identifier; an unauthenticated request changes
    nothing. *)
Theorem profile_targets_requester_only (Payload : Type) (render : User -> bool)
  (upd : User -> Payload -> option User) users requester url_pk a :
  (forall k', Some k' <> requester ->
     find_user (fst (profile_view Payload render upd users requester url_pk a)) k' =
     find_user users k') /\
  (forall u, snd (profile_view Payload render upd users requester url_pk a) = P200 u ->
     requester = Some (uid u)) /\
  profile_view Payload render upd users requester url_pk a =
  profile_view Payload render upd users requester None a.
Proof.
  split; [|split; [|reflexivity]].
  - intros k' Hk'. unfold profile_view.
    destruct requester as [k|]; [|reflexivity].
    destruct (find_user users k) as [obj|] eqn:Ef; [|reflexivity].
    destruct a as [|partial payload]; [destruct (render obj); reflexivity|].
    destruct (upd obj payload) as [obj'|]; [|reflexivity]. simpl.
    rewrite (find_user_uid _ _ _ Ef).
    apply find_user_map_other; [reflexivity|congruence].
  - intros u. unfold profile_view.
    destruct requester as [k|]; [|discriminate].
    destruct (find_user users k) as [obj|] eqn:Ef; [|discriminate].
    pose proof (find_user_uid _ _ _ Ef) as Hk.
    destruct a as [|partial payload].
    + destruct (render obj); simpl; [|discriminate]. intros H. injection H as <-. congruence.
    + destruct (upd obj payload) as [obj'|]; simpl; [|discriminate].
      intros H. injection H as <-. simpl. congruence.
Qed.

End ProfileFacts.

Module ListingSlugFacts.
Import Listings ListingSlug.

Lemma string_length_append (a b : string) :
  String.length (a ++ b) = String.length a + String.length b.
Proof. induction a as [|c a IH]; simpl; [reflexivity | rewrite IH; reflexivity]. Qed.

Lemma string_append_cancel (a b c : string) : (a ++ b = a ++ c)%string -> b = c.
Proof.
  induction a as [|x a IH]; simpl; [tauto|].
  intros H. injection H as H. exact (IH H).
Qed.

Lemma to_uint_nonnil (n : nat) : Nat.to_uint n <> Decimal.Nil.
Proof.
  rewrite <- (DecimalNat.Unsigned.of_to n) at 1.
  rewrite DecimalNat.Unsigned.to_of. apply DecimalFacts.unorm_nonnil.
Qed.

Lemma nat_to_string_inj (a b : nat) : nat_to_string a = nat_to_string b -> a = b.
Proof.
  unfold nat_to_string. intros H.
  assert (E : DecimalString.NilZero.uint_of_string
                (DecimalString.NilZero.string_of_uint (Nat.to_uint a)) =
              DecimalString.NilZero.uint_of_string
                (DecimalString.NilZero.string_of_uint (Nat.to_uint b))) by (rewrite H; reflexivity).
  rewrite !DecimalString.NilZero.usu in E by apply to_uint_nonnil.
  injection E as E. exact (DecimalNat.Unsigned.to_uint_inj a b E).
Qed.

Lemma candidate_inj (base : string) (j k : nat) : candidate base j = candidate base k -> j = k.
Proof.
  assert (Hlen : forall k', String.length (numbered base (S k')) > String.length base).
  { intros k'. unfold numbered. rewrite string_length_append. simpl. lia. }
  destruct j as [|j], k as [|k]; simpl; intros H.
  - reflexivity.
  - specialize (Hlen k). rewrite <- H in Hlen. lia.
  - specialize (Hlen j). rewrite H in Hlen. lia.
  - unfold numbered in H. apply string_append_cancel in H.
    injection H as H. apply nat_to_string_inj in H. exact H.
Qed.

Lemma slug_taken_in (slugs : list (nat * string)) (self : option nat) (s : string) :
  slug_taken slugs self s = true -> In s (map snd slugs).
Proof.
  unfold slug_taken. intros H. apply existsb_exists in H as [[p s'] [Hin Hs]].
  simpl in Hs. apply andb_true_iff in Hs as [Hs _]. apply String.eqb_eq in Hs. subst s'.
  apply in_map_iff. exists (p, s). split; [reflexivity | exact Hin].
Qed.

Lemma slug_loop_none slugs self base (f k : nat) :
  slug_loop slugs self base (candidate base k) (S k) f = None ->
  forall j, k <= j < k + f -> slug_taken slugs self (candidate base j) = true.
Proof.
  revert k. induction f as [|f IH]; intros k H j Hj; [lia|].
  simpl in H. destruct (slug_taken slugs self (candidate base k)) eqn:E; [|discriminate].
  destruct (Nat.eq_dec j k) as [->|Hne]; [exact E|].
  apply (IH (S k)); [exact H | lia].
Qed.

Lemma slug_loop_some slugs self base (f k : nat) (s : string) :
  slug_loop slugs self base (candidate base k) (S k) f = Some s ->
  exists j, k <= j < k + f /\ s = candidate base j /\ slug_taken slugs self s = false /\
            forall i, k <= i < j -> slug_taken slugs self (candidate base i) = true.
Proof.
  revert k. induction f as [|f IH]; intros k H; [discriminate|].
  simpl in H. destruct (slug_taken slugs self (candidate base k)) eqn:E.
  - destruct (IH (S k) H) as [j [Hj [Hs [Hfree Hlow]]]].
    exists j. split; [lia|]. split; [exact Hs|]. split; [exact Hfree|].
    intros i Hi. destruct (Nat.eq_dec i k) as [->|Hne]; [exact E | apply Hlow; lia].
  - injection H as <-. exists k. split; [lia|]. split; [reflexivity|]. split; [exact E|].
    intros i Hi. lia.
Qed.

(** X1: the slug loop of [Listing.save] always stops, and it stops at the
    first free slug: the result is [base_slug] or [base_slug-k], no other
    listing holds it, every earlier candidate is held by another listing,
    and [k] never exceeds the number of listings. *)
Theorem generate_slug_first_free (slugs : list (nat * string)) (self : option nat)
  (base : string) :
  exists k s, generate_slug slugs self base = Some s /\ s = candidate base k /\
    k <= List.length slugs /\ slug_taken slugs self s = false /\
    forall j, j < k -> slug_taken slugs self (candidate base j) = true.
Proof.
  unfold generate_slug. change base with (candidate base 0) at 2.
  destruct (slug_loop slugs self base (candidate base 0) 1 (S (List.length slugs))) as [s|] eqn:E.
  - destruct (slug_loop_some slugs self base (S (List.length slugs)) 0 s E)
      as [j [Hj [Hs [Hfree Hlow]]]].
    exists j, s. split; [reflexivity|]. split; [exact Hs|]. split; [lia|]. split; [exact Hfree|].
    intros i Hi. apply Hlow. lia.
  - exfalso.
    pose proof (slug_loop_none slugs self base (S (List.length slugs)) 0 E) as Hall.
    assert (Hnd : NoDup (map (candidate base) (seq 0 (S (List.length slugs))))).
    { apply NoDup_map_NoDup_ForallPairs; [intros x y _ _; apply candidate_inj | apply seq_NoDup]. }
    assert (Hinc : incl (map (candidate base) (seq 0 (S (List.length slugs)))) (map snd slugs)).
    { intros x Hx. apply in_map_iff in Hx as [j [<- Hj]]. apply in_seq in Hj.
      apply (slug_taken_in slugs self). apply Hall. lia. }
    pose proof (NoDup_incl_length Hnd Hinc) as Hl.
    rewrite !length_map, length_seq in Hl. lia.
Qed.

End ListingSlugFacts.

Module ListingExpiryFacts.
Import Listings ListingExpiry ListingFacts.

(** X2: [expire_if_needed] archives a listing only when the hourly
    [expire_listings_task] would archive it too; the two disagree exactly on
    a published listing whose [expires_at] is the current instant (the task
    tests [expires_at <= now], the property [now > expires_at]). *)
Theorem expire_if_needed_vs_task (now : Z) (l : Listing) :
  (expire_fires now l = true -> expired_published now l = true) /\
  (expired_published now l = true /\ expire_fires now l = false <->
   status l = PUBLISHED /\ expires_at l = Some now).
Proof.
  unfold expire_fires, is_expired, expired_published.
  destruct (expires_at l) as [t|], (status l); simpl;
    try (destruct (Z.ltb_spec t now), (Z.leb_spec t now)); simpl;
    (split; [intros Hx; try discriminate; try reflexivity; lia|]);
    split; intros [Hy Hz]; try discriminate;
    try (injection Hz as Hz; subst t); try lia;
    try (split; [reflexivity | f_equal; lia]); split; reflexivity.
Qed.

Lemma expire_if_needed_vs_task_witness :
  expired_published 5%Z (mkListing 3 PUBLISHED false 0 0 (Some 0%Z) (Some 5%Z)) = true /\
  expire_fires 5%Z (mkListing 3 PUBLISHED false 0 0 (Some 0%Z) (Some 5%Z)) = false.
Proof.
  destruct (expire_if_needed_vs_task 5%Z (mkListing 3 PUBLISHED false 0 0 (Some 0%Z) (Some 5%Z)))
    as [_ [_ H]].
  apply H. split; reflexivity.
Defined.

Lemma unfeature_noop db u excl :
  (forall r, In r db -> user (row r) = u -> featured (row r) = true -> excluded excl (pk r) = true) ->
  unfeature_others db u excl = db.
Proof.
  intros H. unfold unfeature_others. rewrite <- (map_id db) at 2. apply map_ext_in.
  intros r Hr. destruct (user (row r) =? u) eqn:Eu, (featured (row r)) eqn:Ef; simpl; try reflexivity.
  apply Nat.eqb_eq in Eu. rewrite (H r Hr Eu Ef). reflexivity.
Qed.

Lemma has_pk_of_find db p l : find_row db p = Some l -> has_pk db p = true.
Proof.
  intros Hf. destruct (find_row_some db p l Hf) as [r [Hr [Hp _]]].
  unfold has_pk. apply existsb_exists. exists r. split; [exact Hr | apply Nat.eqb_eq; exact Hp].
Qed.

(** X3: when [expire_if_needed] fires on a stored listing, it changes the
    status of that listing's row to archived and nothing else (in a table
    keeping the single-featured invariant, the featured clean-up of [save]
    finds nothing to clear), and returns the archived instance. *)
Theorem expire_if_needed_archives_own_row (now : Z) (db : Table) (p : nat) (l : Listing) :
  listing_inv db -> find_row db p = Some l -> expire_fires now l = true ->
  expire_if_needed now db p l = (set_status ARCHIVED l, update_row db p (set_status ARCHIVED)).
Proof.
  intros [Hnd Hsf] Hf Hfire. unfold expire_if_needed. rewrite Hfire. f_equal.
  destruct (find_row_some db p l Hf) as [r0 [Hr0 [Hp0 Hl0]]].
  assert (Hdb1 : (if featured l then unfeature_others db (user l) (Some p) else db) = db).
  { destruct (featured l) eqn:Ef; [|reflexivity].
    apply unfeature_noop. intros r Hr Hu Hfr. simpl.
    apply Nat.eqb_eq. rewrite <- Hp0. apply (Hsf r r0 Hr Hr0); [rewrite Hl0; exact Hu | exact Hfr |].
    rewrite Hl0; exact Ef. }
  unfold save, stamp_published. simpl. rewrite Hdb1.
  rewrite (has_pk_of_find db p l Hf). simpl.
  unfold update_row. apply map_ext. intros r. destruct (pk r =? p); reflexivity.
Qed.

Lemma expire_if_needed_archives_own_row_witness :
  listing_inv [mkRow 1 (mkListing 3 PUBLISHED true 0 0 (Some 0%Z) (Some 5%Z))] /\
  expire_if_needed 10%Z [mkRow 1 (mkListing 3 PUBLISHED true 0 0 (Some 0%Z) (Some 5%Z))] 1
    (mkListing 3 PUBLISHED true 0 0 (Some 0%Z) (Some 5%Z)) =
  (mkListing 3 ARCHIVED true 0 0 (Some 0%Z) (Some 5%Z),
   [mkRow 1 (mkListing 3 ARCHIVED true 0 0 (Some 0%Z) (Some 5%Z))]).
Proof.
  assert (Hinv : listing_inv [mkRow 1 (mkListing 3 PUBLISHED true 0 0 (Some 0%Z) (Some 5%Z))]).
  { split; [repeat constructor; simpl; tauto | intros r1 r2 [<-|[]] [<-|[]]; reflexivity]. }
  split; [exact Hinv|].
  exact (expire_if_needed_archives_own_row 10%Z _ 1 _ Hinv eq_refl eq_refl).
Defined.

End ListingExpiryFacts.

Module ListingActionsFacts.
Import Listings ListingActions ListingFacts ListingExpiryFacts.

Lemma find_row_unfeature db u p : find_row (unfeature_others db u (Some p)) p = find_row db p.
Proof.
  unfold find_row, unfeature_others. induction db as [|a db IH]; simpl; [reflexivity|].
  destruct (pk a =? p) eqn:E.
  - rewrite andb_false_r. simpl. rewrite E. reflexivity.
  - destruct (_ && _ && _); simpl; rewrite E; exact IH.
Qed.

Lemma find_row_update db p f : find_row (update_row db p f) p = option_map f (find_row db p).
Proof.
  unfold find_row, update_row. induction db as [|a db IH]; simpl; [reflexivity|].
  destruct (pk a =? p) eqn:E; simpl.
  - rewrite Nat.eqb_refl. reflexivity.
  - rewrite E. exact IH.
Qed.

Lemma save_update_existing now db p l l0 f fs :
  find_row db p = Some l ->
  exists db', save now db (mkInstance (Some p) l0) (Some (f :: fs)) = SaveOk db' (Some p) /\
    find_row db' p = Some (write_fields (Some (f :: fs)) (stamp_published now l0) l).
Proof.
  intros Hf. unfold save. cbv beta iota zeta delta [inst_pk inst].
  assert (H1 : find_row (if featured (stamp_published now l0)
                         then unfeature_others db (user (stamp_published now l0)) (Some p)
                         else db) p = Some l).
  { destruct (featured _); [rewrite find_row_unfeature|]; exact Hf. }
  rewrite (has_pk_of_find _ p l H1). eexists. split; [reflexivity|].
  rewrite find_row_update, H1. reflexivity.
Qed.

Lemma creator_not_admin ro : can_create_listings ro = true -> is_admin_user ro = false.
Proof. destruct ro; simpl; congruence. Qed.

Lemma admin_not_creator ro : is_admin_user ro = true -> can_create_listings ro = false.
Proof. destruct ro; simpl; congruence. Qed.

Lemma owner_of_creator r l :
  can_create_listings (rq_role r) = true -> owner_or_admin (Some r) l = true -> user l = rq_id r.
Proof.
  intros Hc Ho. simpl in Ho. rewrite (creator_not_admin _ Hc), orb_false_r in Ho.
  apply Nat.eqb_eq. exact Ho.
Qed.

Lemma publish_done now db who p db' :
  publish now db who p = (db', Done200) ->
  exists r l, who = Some r /\ can_create_listings (rq_role r) = true /\ find_row db p = Some l /\
    user l = rq_id r /\ status l = DRAFT /\
    exists sp, save now db (mkInstance (Some p) (set_status PUBLISHED l))
                 (Some [f_status; f_published_at]) = SaveOk db' sp.
Proof.
  intros H. unfold publish in H.
  destruct who as [r|]; cbn [post_permitted negb] in H; [|inversion H].
  destruct (can_create_listings (rq_role r)) eqn:Hc; cbn [negb] in H; [|inversion H].
  destruct (find_row db p) as [l|] eqn:Hf; [|inversion H].
  destruct (owner_or_admin (Some r) l) eqn:Ho; cbn [negb] in H; [|inversion H].
  destruct (Status_eqb (status l) DRAFT) eqn:Hd; cbn [negb] in H; [|inversion H].
  destruct (save now db (mkInstance (Some p) (set_status PUBLISHED l))
              (Some [f_status; f_published_at])) as [db1 sp|db1] eqn:Es;
    cbn [after_save] in H; inversion H; subst.
  exists r, l. repeat split; auto.
  - exact (owner_of_creator r l Hc Ho).
  - destruct (status l); simpl in Hd; congruence.
  - exists sp. exact Es.
Qed.

Lemma archive_done now db who p db' :
  archive now db who p = (db', Done200) ->
  exists r l, who = Some r /\ can_create_listings (rq_role r) = true /\ find_row db p = Some l /\
    user l = rq_id r /\
    exists sp, save now db (mkInstance (Some p) (set_status ARCHIVED l)) (Some [f_status])
                 = SaveOk db' sp.
Proof.
  intros H. unfold archive in H.
  destruct who as [r|]; cbn [post_permitted negb] in H; [|inversion H].
  destruct (can_create_listings (rq_role r)) eqn:Hc; cbn [negb] in H; [|inversion H].
  destruct (find_row db p) as [l|] eqn:Hf; [|inversion H].
  destruct (owner_or_admin (Some r) l) eqn:Ho; cbn [negb] in H; [|inversion H].
  destruct (save now db (mkInstance (Some p) (set_status ARCHIVED l)) (Some [f_status]))
    as [db1 sp|db1] eqn:Es; cbn [after_save] in H; inversion H; subst.
  exists r, l. repeat split; auto.
  - exact (owner_of_creator r l Hc Ho).
  - exists sp. exact Es.
Qed.

(** X4: [publish] and [archive] succeed only for the listing's owner with a
    role that may create listings (seller or service provider): the POST
    goes through [CanCreateListing] first, so an admin or super admin is
    always refused and nothing is written, although both actions test
    [is_admin_user] in their bodies. *)
Theorem publish_archive_owner_only :
  (forall now db who p db', publish now db who p = (db', Done200) ->
     exists r l, who = Some r /\ can_create_listings (rq_role r) = true /\
       find_row db p = Some l /\ user l = rq_id r) /\
  (forall now db who p db', archive now db who p = (db', Done200) ->
     exists r l, who = Some r /\ can_create_listings (rq_role r) = true /\
       find_row db p = Some l /\ user l = rq_id r) /\
  (forall now db r p, is_admin_user (rq_role r) = true ->
     publish now db (Some r) p = (db, Denied) /\ archive now db (Some r) p = (db, Denied)).
Proof.
  split; [|split].
  - intros now db who p db' H. destruct (publish_done now db who p db' H) as [r [l [A [B [C [D _]]]]]].
    exists r, l. auto.
  - intros now db who p db' H. destruct (archive_done now db who p db' H) as [r [l [A [B [C [D _]]]]]].
    exists r, l. auto.
  - intros now db r p Ha. unfold publish, archive. simpl. rewrite (admin_not_creator _ Ha). auto.
Qed.

Lemma publish_archive_owner_only_witness :
  publish 1%Z [mkRow 1 (mkListing 3 DRAFT false 0 0 None None)] (Some (mkRequester 9 Accounts.ADMIN)) 1
    = ([mkRow 1 (mkListing 3 DRAFT false 0 0 None None)], Denied) /\
  archive 1%Z [mkRow 1 (mkListing 3 DRAFT false 0 0 None None)] (Some (mkRequester 9 Accounts.ADMIN)) 1
    = ([mkRow 1 (mkListing 3 DRAFT false 0 0 None None)], Denied).
Proof.
  destruct publish_archive_owner_only as [_ [_ H]]. apply H. reflexivity.
Defined.

(** X5: a successful [publish] was on a draft and leaves its row published,
    with [published_at] kept when it was set and set to the current time
    otherwise, the other columns unchanged; a successful [archive] leaves the
    row archived with the other columns unchanged.  Both keep the table's
    invariants (unique primary keys, one featured listing per user). *)
Theorem publish_archive_effect (now : Z) (db : Table) (who : option Requester) (p : nat) (db' : Table) :
  listing_inv db ->
  (publish now db who p = (db', Done200) ->
   exists l, find_row db p = Some l /\ status l = DRAFT /\
     find_row db' p = Some (stamp_published now (set_status PUBLISHED l)) /\ listing_inv db') /\
  (archive now db who p = (db', Done200) ->
   exists l, find_row db p = Some l /\
     find_row db' p = Some (set_status ARCHIVED l) /\ listing_inv db').
Proof.
  intros Hinv. split.
  - intros H. destruct (publish_done now db who p db' H) as [r [l [_ [_ [Hf [_ [Hd [sp Es]]]]]]]].
    exists l. split; [exact Hf|]. split; [exact Hd|].
    destruct (save_update_existing now db p l (set_status PUBLISHED l) f_status [f_published_at] Hf)
      as [db2 [Es2 Hf2]].
    rewrite Es in Es2. injection Es2 as <- _. split.
    + rewrite Hf2. unfold stamp_published. simpl.
      destruct (is_set (published_at l)); reflexivity.
    + change db' with (result_db (SaveOk db' sp)). rewrite <- Es.
      apply save_inv; [exact Hinv|].
      exact (update_owner_matches db p l (mkAttrs (Some PUBLISHED) None None) Hinv Hf).
  - intros H. destruct (archive_done now db who p db' H) as [r [l [_ [_ [Hf [_ [sp Es]]]]]]].
    exists l. split; [exact Hf|].
    destruct (save_update_existing now db p l (set_status ARCHIVED l) f_status [] Hf)
      as [db2 [Es2 Hf2]].
    rewrite Es in Es2. injection Es2 as <- _. split.
    + rewrite Hf2. reflexivity.
    + change db' with (result_db (SaveOk db' sp)). rewrite <- Es.
      apply save_inv; [exact Hinv|].
      exact (update_owner_matches db p l (mkAttrs (Some ARCHIVED) None None) Hinv Hf).
Qed.

Lemma publish_archive_effect_witness :
  listing_inv [mkRow 1 (mkListing 3 DRAFT false 0 0 None None)] /\
  publish 7%Z [mkRow 1 (mkListing 3 DRAFT false 0 0 None None)]
    (Some (mkRequester 3 Accounts.SELLER)) 1
    = ([mkRow 1 (mkListing 3 PUBLISHED false 0 0 (Some 7%Z) None)], Done200) /\
  find_row [mkRow 1 (mkListing 3 PUBLISHED false 0 0 (Some 7%Z) None)] 1 =
    Some (stamp_published 7%Z (set_status PUBLISHED (mkListing 3 DRAFT false 0 0 None None))).
Proof.
  assert (Hinv : listing_inv [mkRow 1 (mkListing 3 DRAFT false 0 0 None None)]).
  { split; [repeat constructor; simpl; tauto | intros r1 r2 [<-|[]] [<-|[]]; reflexivity]. }
  assert (Hp : publish 7%Z [mkRow 1 (mkListing 3 DRAFT false 0 0 None None)]
                 (Some (mkRequester 3 Accounts.SELLER)) 1
               = ([mkRow 1 (mkListing 3 PUBLISHED false 0 0 (Some 7%Z) None)], Done200))
    by reflexivity.
  split; [exact Hinv|]. split; [exact Hp|].
  destruct (proj1 (publish_archive_effect 7%Z _ _ 1 _ Hinv) Hp) as [l [Hf [_ [Hf' _]]]].
  simpl in Hf. injection Hf as <-. exact Hf'.
Defined.

(** X6: each listing type is accepted for exactly one role:
    [service] for service providers, [sell], [rent] and [lease] for
    sellers; a buyer, an admin or a super admin is refused every type. *)
Theorem validate_listing_type_roles (r : Accounts.Role) (t : ListingType) :
  validate_listing_type r t = true <->
  (t = SERVICE /\ r = Accounts.SERVICE_PROVIDER) \/ (t <> SERVICE /\ r = Accounts.SELLER).
Proof.
  destruct r, t; simpl; split; intros H; try discriminate; try reflexivity;
    try (destruct H as [[H1 H2]|[H1 H2]]; discriminate || congruence);
    try (left; split; reflexivity); try (right; split; [discriminate | reflexivity]).
Qed.

End ListingActionsFacts.

Module ListingImagesFacts.
Import ListingImages.

Lemma listing_images_app imgs x L :
  listing_images (imgs ++ [x]) L =
  listing_images imgs L ++ (if img_listing x =? L then [(image x, is_primary x, sort_order x)] else []).
Proof.
  unfold listing_images. rewrite filter_app, map_app. simpl.
  destruct (img_listing x =? L); reflexivity.
Qed.

Lemma create_images_from_spec imgs L i files :
  listing_images (create_images_from imgs L i files) L =
    listing_images imgs L ++
    map (fun fk => (fst fk, snd fk =? 0, snd fk)) (combine files (seq i (List.length files))) /\
  forall o, o <> L ->
    listing_images (create_images_from imgs L i files) o = listing_images imgs o.
Proof.
  revert imgs i. induction files as [|f fs IH]; intros imgs i; simpl.
  - rewrite app_nil_r. split; reflexivity.
  - destruct (IH (create_image imgs L f (i =? 0) i) (S i)) as [H1 H2]. split.
    + rewrite H1. unfold create_image. rewrite listing_images_app. simpl.
      rewrite Nat.eqb_refl, <- app_assoc. reflexivity.
    + intros o Ho. rewrite (H2 o Ho). unfold create_image. rewrite listing_images_app. simpl.
      destruct (L =? o) eqn:E; [apply Nat.eqb_eq in E; congruence | apply app_nil_r].
Qed.

Lemma listing_images_deleted imgs L :
  listing_images (filter (fun r => negb (img_listing r =? L)) imgs) L = [] /\
  forall o, o <> L ->
    listing_images (filter (fun r => negb (img_listing r =? L)) imgs) o = listing_images imgs o.
Proof.
  unfold listing_images. induction imgs as [|x xs [IH1 IH2]]; simpl; [split; reflexivity|].
  destruct (img_listing x =? L) eqn:E; simpl; split.
  - exact IH1.
  - intros o Ho. rewrite (IH2 o Ho). apply Nat.eqb_eq in E.
    destruct (img_listing x =? o) eqn:E2; [apply Nat.eqb_eq in E2; congruence | reflexivity].
  - rewrite E. exact IH1.
  - intros o Ho. destruct (img_listing x =? o); simpl; rewrite (IH2 o Ho); reflexivity.
Qed.

(** X7: after a listing update that carries [images_data], the listing's
    images are exactly the uploaded files in upload order, the first one
    primary and every other one not, with [sort_order] its index; the images
    of other listings are untouched.  This holds without the primary-image
    signal, which is never connected. *)
Theorem replace_images_exact (imgs : list Image) (L : nat) (files : list string) :
  listing_images (replace_images imgs L files) L =
    map (fun fk => (fst fk, snd fk =? 0, snd fk)) (combine files (seq 0 (List.length files))) /\
  forall o, o <> L -> listing_images (replace_images imgs L files) o = listing_images imgs o.
Proof.
  unfold replace_images, create_images.
  destruct (create_images_from_spec (filter (fun r => negb (img_listing r =? L)) imgs) L 0 files)
    as [H1 H2].
  destruct (listing_images_deleted imgs L) as [D1 D2].
  split.
  - rewrite H1, D1. reflexivity.
  - intros o Ho. rewrite (H2 o Ho). exact (D2 o Ho).
Qed.

End ListingImagesFacts.

Module ClientIpFacts.
Import ListingRequestHelpers.

Lemma before_comma_no_comma (v w : string) :
  forallb (fun c => negb (Ascii.eqb c ","%char)) (list_ascii_of_string v) = true ->
  before_comma v = v /\ before_comma (v ++ String ","%char w)%string = v.
Proof.
  induction v as [|c v IH]; simpl; [split; reflexivity|].
  intros H. apply andb_true_iff in H as [Hc H]. apply negb_true_iff in Hc.
  rewrite Hc. destruct (IH H) as [A B]. rewrite A, B. split; reflexivity.
Qed.

Lemma strip_trimmed (v : string) :
  String.eqb v EmptyString = false ->
  PyStr.is_space (hd "a"%char (list_ascii_of_string v)) = false ->
  PyStr.is_space (last (list_ascii_of_string v) "a"%char) = false ->
  PyStr.strip v = v.
Proof.
  intros Hne Hhd Hlast. unfold PyStr.strip.
  assert (Hl : PyStr.lstrip v = v).
  { destruct v as [|c r]; [discriminate|]. simpl in Hhd |- *. rewrite Hhd. reflexivity. }
  rewrite Hl. unfold PyStr.rstrip.
  assert (Hnil : list_ascii_of_string v <> []).
  { destruct v; [discriminate | simpl; discriminate]. }
  rewrite (app_removelast_last "a"%char Hnil), rev_app_distr. simpl rev at 1.
  simpl string_of_list_ascii. simpl PyStr.lstrip. rewrite Hlast.
  simpl list_ascii_of_string. rewrite list_ascii_of_string_of_list_ascii. simpl.
  rewrite rev_involutive, <- app_removelast_last by exact Hnil.
  apply string_of_list_ascii_of_string.
Qed.

(** X8: the address recorded for a listing view is whatever the client
    puts first in [X-Forwarded-For]: for any non-empty first entry without
    a comma or surrounding whitespace, the header alone, or followed by a
    comma and anything, yields exactly that entry, whatever [REMOTE_ADDR]
    is. *)
Theorem client_ip_first_forwarded (v : string) (remote : option string) :
  String.eqb v EmptyString = false ->
  forallb (fun c => negb (Ascii.eqb c ","%char)) (list_ascii_of_string v) = true ->
  PyStr.is_space (hd "a"%char (list_ascii_of_string v)) = false ->
  PyStr.is_space (last (list_ascii_of_string v) "a"%char) = false ->
  get_client_ip (Some v) remote = Some v /\
  forall w : string, get_client_ip (Some (v ++ String ","%char w)%string) remote = Some v.
Proof.
  intros Hne Hnc Hhd Hlast. unfold get_client_ip.
  pose proof (strip_trimmed v Hne Hhd Hlast) as Hs.
  split.
  - rewrite Hne. destruct (before_comma_no_comma v EmptyString Hnc) as [A _]. rewrite A, Hs. reflexivity.
  - intros w. destruct (before_comma_no_comma v w Hnc) as [_ B].
    assert (Hne' : String.eqb (v ++ String ","%char w)%string EmptyString = false).
    { destruct v; [discriminate | reflexivity]. }
    rewrite Hne', B, Hs. reflexivity.
Qed.

Lemma client_ip_first_forwarded_witness :
  get_client_ip (Some "6.6.6.6"%string) (Some "10.0.0.1"%string) = Some "6.6.6.6"%string /\
  get_client_ip (Some ("6.6.6.6" ++ String ","%char " 10.0.0.1")%string) (Some "10.0.0.1"%string)
    = Some "6.6.6.6"%string.
Proof.
  destruct (client_ip_first_forwarded "6.6.6.6"%string (Some "10.0.0.1"%string)
              eq_refl eq_refl eq_refl eq_refl) as [A B].
  split; [exact A | apply B].
Defined.

End ClientIpFacts.

Module InquiryOpsFacts.
Import Inquiries InquiryOps InquiryFacts.

Lemma find_put_inquiry_gen st q j p :
  find_inquiry (put_inquiry st q j) p =
    if q =? p then option_map (fun _ => j) (find_inquiry st p) else find_inquiry st p.
Proof.
  unfold find_inquiry, put_inquiry; simpl.
  induction (inquiries st) as [|r rs IH]; simpl; [destruct (q =? p); reflexivity|].
  destruct (ipk r =? q) eqn:E; simpl.
  - apply Nat.eqb_eq in E. subst q. destruct (ipk r =? p) eqn:E2; simpl; [reflexivity|].
    exact IH.
  - destruct (ipk r =? p) eqn:E2; simpl.
    + apply Nat.eqb_eq in E2. subst p. apply Nat.eqb_neq in E.
      destruct (q =? ipk r) eqn:E3; [apply Nat.eqb_eq in E3; congruence | reflexivity].
    + exact IH.
Qed.

Lemma inq_step_keeps now st o p i :
  find_inquiry st p = Some i ->
  exists i', find_inquiry (inq_step now st o) p = Some i' /\
    listing i' = listing i /\ from_user i' = from_user i /\ to_user i' = to_user i /\
    (forall t, read_at i = Some t -> read_at i' = Some t) /\
    (forall t, replied_at i = Some t -> replied_at i' = Some t).
Proof.
  intros Hf.
  assert (Hput : forall q j, (forall iq, find_inquiry st q = Some iq -> q = p -> iq = i ->
              listing j = listing i /\ from_user j = from_user i /\ to_user j = to_user i /\
              (forall t, read_at i = Some t -> read_at j = Some t) /\
              (forall t, replied_at i = Some t -> replied_at j = Some t)) ->
              find_inquiry st q <> None ->
            exists i', find_inquiry (put_inquiry st q j) p = Some i' /\
              listing i' = listing i /\ from_user i' = from_user i /\ to_user i' = to_user i /\
              (forall t, read_at i = Some t -> read_at i' = Some t) /\
              (forall t, replied_at i = Some t -> replied_at i' = Some t)).
  { intros q j Hj _. rewrite find_put_inquiry_gen.
    destruct (q =? p) eqn:E.
    - apply Nat.eqb_eq in E. subst q. rewrite Hf. simpl. exists j. split; [reflexivity|].
      exact (Hj i Hf eq_refl eq_refl).
    - exists i. rewrite Hf. repeat split; auto. }
  assert (Hsame : exists i', find_inquiry st p = Some i' /\
            listing i' = listing i /\ from_user i' = from_user i /\ to_user i' = to_user i /\
            (forall t, read_at i = Some t -> read_at i' = Some t) /\
            (forall t, replied_at i = Some t -> replied_at i' = Some t)).
  { exists i. repeat split; auto. }
  destruct o as [u q|u q m|u q]; simpl.
  - unfold retrieve. destruct (find_inquiry st q) as [iq|] eqn:Eq; [|exact Hsame].
    destruct (participant u iq); [|exact Hsame].
    destruct ((to_user iq =? u) && negb (is_read iq)); [|exact Hsame]. simpl.
    apply Hput; [|rewrite Eq; discriminate].
    intros iq' Hiq -> Heq. rewrite Eq in Hiq. injection Hiq as <-. subst iq.
    unfold mark_as_read, is_read. destruct (read_at i) eqn:Er; simpl.
    + repeat split; try reflexivity; intros t Ht; congruence.
    + repeat split; try reflexivity; intros t Ht; congruence.
  - unfold reply. destruct (find_inquiry st q) as [iq|] eqn:Eq; [|exact Hsame].
    destruct (participant u iq); [|exact Hsame].
    destruct (negb (to_user iq =? u)); [exact Hsame|].
    destruct (String.eqb (PyStr.strip m) EmptyString); [exact Hsame|]. simpl.
    apply Hput; [|rewrite Eq; discriminate].
    intros iq' Hiq -> Heq. rewrite Eq in Hiq. injection Hiq as <-. subst iq.
    unfold mark_as_replied, is_replied. destruct (replied_at i) eqn:Er; simpl.
    + repeat split; try reflexivity; intros t Ht; congruence.
    + repeat split; try reflexivity; intros t Ht; congruence.
  - unfold mark_spam. destruct (find_inquiry st q) as [iq|] eqn:Eq; [|exact Hsame].
    destruct (participant u iq); [|exact Hsame].
    destruct (negb (to_user iq =? u)); [exact Hsame|]. simpl.
    apply Hput; [|rewrite Eq; discriminate].
    intros iq' Hiq -> Heq. rewrite Eq in Hiq. injection Hiq as <-. subst iq.
    repeat split; auto.
Qed.

(** X9: whatever sequence of retrieve, reply and mark-spam requests follows,
    an existing inquiry keeps its listing, sender and recipient, and its
    [read_at] and [replied_at] stamps are written at most once: a stamp, once
    set, keeps its value. *)
Theorem inquiry_stamps_write_once (st : Store) (trace : list (Z * InqOp)) (p : nat) (i : Inquiry) :
  find_inquiry st p = Some i ->
  exists i', find_inquiry (inq_run st trace) p = Some i' /\
    listing i' = listing i /\ from_user i' = from_user i /\ to_user i' = to_user i /\
    (forall t, read_at i = Some t -> read_at i' = Some t) /\
    (forall t, replied_at i = Some t -> replied_at i' = Some t).
Proof.
  revert st i. induction trace as [|[now o] rest IH]; intros st i Hf; simpl.
  - exists i. repeat split; auto.
  - destruct (inq_step_keeps now st o p i Hf) as [i1 [H1 [A1 [B1 [C1 [D1 E1]]]]]].
    destruct (IH _ i1 H1) as [i2 [H2 [A2 [B2 [C2 [D2 E2]]]]]].
    exists i2. split; [exact H2|]. repeat split; try congruence; auto.
Qed.

Lemma inquiry_stamps_write_once_witness :
  option_map read_at
    (find_inquiry (inq_run (inq_run pending_store [(5%Z, DoRetrieve 2 1)]) [(9%Z, DoRetrieve 2 1)]) 1)
  = Some (Some 5%Z).
Proof.
  destruct (inquiry_stamps_write_once (inq_run pending_store [(5%Z, DoRetrieve 2 1)])
              [(9%Z, DoRetrieve 2 1)] 1 (mkInquiry 1 1 2 READ (Some 5%Z) None) eq_refl)
    as [i' [H [_ [_ [_ [Hr _]]]]]].
  rewrite H. simpl. rewrite (Hr 5%Z eq_refl). reflexivity.
Defined.

(** X10: only the recipient changes an inquiry: a retrieve, reply or
    mark-spam request that changes the store targets an existing inquiry
    whose recipient is the requester; a request from the sender or from a
    third party, or on a missing inquiry, writes nothing. *)
Theorem only_recipient_changes_inquiry (now : Z) (st : Store) (o : InqOp) :
  inq_step now st o <> st ->
  exists i, find_inquiry st (op_target o) = Some i /\ to_user i = op_actor o.
Proof.
  intros Hch. destruct (find_inquiry st (op_target o)) as [i|] eqn:Hf.
  - exists i. split; [reflexivity|].
    destruct (to_user i =? op_actor o) eqn:E; [apply Nat.eqb_eq; exact E|].
    exfalso. apply Hch.
    destruct o as [u q|u q m|u q]; simpl in *; unfold retrieve, reply, mark_spam; rewrite Hf;
      rewrite E; simpl; destruct (participant _ _); reflexivity.
  - exfalso. apply Hch.
    destruct o as [u q|u q m|u q]; simpl in *; unfold retrieve, reply, mark_spam; rewrite Hf;
      reflexivity.
Qed.

Lemma only_recipient_changes_inquiry_witness :
  inq_step 5%Z pending_store (DoRetrieve 2 1) <> pending_store /\
  exists i, find_inquiry pending_store 1 = Some i /\ to_user i = 2.
Proof.
  assert (Hne : inq_step 5%Z pending_store (DoRetrieve 2 1) <> pending_store) by discriminate.
  split; [exact Hne|].
  exact (only_recipient_changes_inquiry 5%Z pending_store (DoRetrieve 2 1) Hne).
Defined.

(** X11: marking an unread inquiry as spam does not stick: the next time its
    recipient opens it, [mark_as_read] sets the status to [READ]. *)
Theorem spam_undone_by_opening (now : Z) (st : Store) (p : nat) (i : Inquiry) :
  find_inquiry st p = Some i -> read_at i = None ->
  snd (mark_spam st (to_user i) p) = R200 /\
  find_inquiry (fst (retrieve now (fst (mark_spam st (to_user i) p)) (to_user i) p)) p =
    Some (mkInquiry (listing i) (from_user i) (to_user i) READ (Some now) (replied_at i)).
Proof.
  intros Hf Hr.
  assert (Hp : forall j, to_user j = to_user i -> participant (to_user i) j = true).
  { intros j Hj. unfold participant. rewrite Hj, Nat.eqb_refl, orb_true_r. reflexivity. }
  unfold mark_spam. rewrite Hf, (Hp i eq_refl), Nat.eqb_refl. simpl. split; [reflexivity|].
  pose proof (find_put_inquiry st p i
                (mkInquiry (listing i) (from_user i) (to_user i) SPAM (read_at i) (replied_at i)) Hf)
    as Hs.
  unfold retrieve. rewrite Hs.
  rewrite (Hp (mkInquiry (listing i) (from_user i) (to_user i) SPAM (read_at i) (replied_at i))
             eq_refl).
  simpl. rewrite Nat.eqb_refl. unfold is_read. simpl. rewrite Hr. simpl.
  unfold mark_as_read, is_read. simpl. rewrite ?Hr. simpl.
  rewrite Hr in Hs. exact (find_put_inquiry _ p _ _ Hs).
Qed.

Lemma spam_undone_by_opening_witness :
  find_inquiry (fst (retrieve 7%Z (fst (mark_spam pending_store 2 1)) 2 1)) 1 =
    Some (mkInquiry 1 1 2 READ (Some 7%Z) None).
Proof.
  exact (proj2 (spam_undone_by_opening 7%Z pending_store 1 (mkInquiry 1 1 2 PENDING None None)
                  eq_refl eq_refl)).
Defined.

Lemma next_ipk_fresh st : ~ In (next_ipk st) (map ipk (inquiries st)).
Proof.
  unfold next_ipk.
  assert (forall x, In x (map ipk (inquiries st)) -> x <= fold_right Nat.max 0 (map ipk (inquiries st)))
    as Hle.
  { induction (map ipk (inquiries st)) as [|y ys IH]; simpl; [tauto|].
    intros x [<-|Hx]; [lia | specialize (IH x Hx); lia]. }
  intros Hin. specialize (Hle _ Hin). lia.
Qed.

Lemma find_inquiry_app st q j p :
  find (fun r => ipk r =? p) (inquiries st ++ [mkInqRow q j]) =
    match find (fun r => ipk r =? p) (inquiries st) with
    | Some r => Some r
    | None => if q =? p then Some (mkInqRow q j) else None
    end.
Proof.
  induction (inquiries st) as [|r rs IH]; simpl; [reflexivity|].
  destruct (ipk r =? p); [reflexivity | exact IH].
Qed.

(** X12: a successful inquiry creation stores, under a fresh id, a pending
    inquiry from the requester to the listing's owner, who is never the
    requester, with no read or reply stamp, and queues one notification for
    it; every earlier inquiry is unchanged.  A rejected creation changes
    nothing. *)
Theorem create_inquiry_fresh_pending (st : Store) (u lid : nat) :
  (forall st' p, create_inquiry st u lid = (st', Created p) ->
     exists l, Listings.find_row (listings st) lid = Some l /\ Listings.user l <> u /\
       ~ In p (map ipk (inquiries st)) /\
       find_inquiry st' p = Some (mkInquiry lid u (Listings.user l) PENDING None None) /\
       notify_jobs st' = notify_jobs st ++ [p] /\
       forall q, q <> p -> find_inquiry st' q = find_inquiry st q) /\
  (forall st', create_inquiry st u lid = (st', ValidationError) -> st' = st).
Proof.
  split.
  - intros st' p H. unfold create_inquiry in H.
    destruct (Listings.find_row (listings st) lid) as [l|] eqn:Hf; [|discriminate].
    destruct (negb (Listings.Status_eqb (Listings.status l) Listings.PUBLISHED)); [discriminate|].
    destruct (Listings.user l =? u) eqn:Eu; [discriminate|].
    injection H as <- <-. exists l. split; [reflexivity|].
    split; [apply Nat.eqb_neq; exact Eu|].
    pose proof (next_ipk_fresh st) as Hfr. split; [exact Hfr|].
    unfold find_inquiry; simpl. rewrite (find_inquiry_app st _ _ _).
    split; [|split; [reflexivity|]].
    + destruct (find (fun r => ipk r =? next_ipk st) (inquiries st)) as [r|] eqn:E.
      * exfalso. apply find_some in E as [Hin Hp]. apply Nat.eqb_eq in Hp.
        apply Hfr. rewrite <- Hp. apply in_map. exact Hin.
      * rewrite Nat.eqb_refl. reflexivity.
    + intros q Hq. rewrite (find_inquiry_app st _ _ q).
      destruct (find (fun r => ipk r =? q) (inquiries st)); [reflexivity|].
      destruct (next_ipk st =? q) eqn:E; [apply Nat.eqb_eq in E; congruence | reflexivity].
  - intros st' H. unfold create_inquiry in H.
    destruct (Listings.find_row (listings st) lid) as [l|]; [|injection H as <-; reflexivity].
    destruct (negb (Listings.Status_eqb (Listings.status l) Listings.PUBLISHED));
      [injection H as <-; reflexivity|].
    destruct (Listings.user l =? u); [injection H as <-; reflexivity | discriminate].
Qed.

Lemma create_inquiry_fresh_pending_witness :
  find_inquiry (fst (create_inquiry one_listing_store 3 1)) 1 =
    Some (mkInquiry 1 3 2 PENDING None None) /\
  fst (create_inquiry one_listing_store 2 1) = one_listing_store.
Proof.
  destruct (create_inquiry_fresh_pending one_listing_store 3 1) as [H1 _].
  destruct (H1 _ 1 eq_refl) as [l [Hf [_ [_ [Hi _]]]]].
  simpl in Hf. injection Hf as <-. split; [exact Hi|].
  destruct (create_inquiry_fresh_pending one_listing_store 2 1) as [_ H2].
  apply H2. reflexivity.
Defined.

End InquiryOpsFacts.

Module RoleUpdateFacts.
Import Accounts RoleUpdate.

(** X13: through [UserRoleUpdateSerializer], a requester who is not a super
    admin never produces an admin or super-admin role and never changes a
    super admin; it cannot even change [is_verified] of an admin, yet it can
    demote an admin to a non-admin role.  A super admin's update always goes
    through. *)
Theorem role_update_bounds :
  (forall req cur ver nr nv res, is_super_admin req = false ->
     role_update req cur ver nr nv = Some res ->
     is_admin_role (fst res) = false /\ cur <> SUPER_ADMIN) /\
  (forall req ver nv, is_super_admin req = false ->
     role_update req ADMIN ver None nv = None) /\
  (forall req ver nr nv, is_super_admin req = false -> is_admin_role nr = false ->
     role_update req ADMIN ver (Some nr) nv =
       Some (nr, match nv with Some v => v | None => ver end)) /\
  (forall cur ver nr nv,
     role_update SUPER_ADMIN cur ver nr nv =
       Some (match nr with Some r => r | None => cur end,
             match nv with Some v => v | None => ver end)).
Proof.
  split; [|split; [|split]].
  - intros req cur ver nr nv res Hs H.
    destruct req; try discriminate Hs; destruct cur; destruct nr as [[]|]; simpl in H;
      try discriminate H; injection H as <-; (split; [reflexivity | discriminate]).
  - intros req ver nv Hs. unfold role_update. rewrite Hs. reflexivity.
  - intros req ver nr nv Hs Hn. unfold role_update. rewrite Hs, Hn. reflexivity.
  - intros cur ver nr nv. unfold role_update. simpl.
    destruct nr; simpl; rewrite ?andb_false_r; reflexivity.
Qed.

Lemma role_update_bounds_witness :
  role_update ADMIN ADMIN false None (Some true) = None /\
  role_update ADMIN ADMIN false (Some SELLER) None = Some (SELLER, false).
Proof.
  destruct role_update_bounds as [_ [H2 [H3 _]]].
  split; [apply H2; reflexivity | apply (H3 ADMIN false SELLER None); reflexivity].
Defined.

End RoleUpdateFacts.

Module PasswordResetFacts.
Import PasswordReset.




Lemma filter_map_token (v : string) (q : nat) (l : list ResetToken) :
  filter (fun t => String.eqb (token t) v) (map (use_token q) l) =
  map (use_token q) (filter (fun t => String.eqb (token t) v) l).
Proof.
  induction l as [|t l IH]; simpl; [reflexivity|].
  assert (E : token (use_token q t) = token t) by (unfold use_token; destruct (tok_pk t =? q); reflexivity).
  rewrite E. destruct (String.eqb (token t) v); simpl; rewrite IH; reflexivity.
Qed.

(** X15: a successful password reset stores the new password with its
    surrounding whitespace removed (DRF trims [CharField] input) and marks
    the token used, so the same token never resets a password again: every
    later confirmation with it fails and writes nothing. *)
Theorem reset_confirm_one_shot (validate_password : string -> bool) (now : Z) (st : Store)
  (value pw pw2 : string) (st' : Store) (u : nat) :
  reset_confirm validate_password now st value pw pw2 = (st', PasswordWasReset u) ->
  (forall a, In a (accounts st') -> acc_id a = u -> acc_password a = Some (PyStr.strip pw)) /\
  forall now' pw' pw2',
    fst (reset_confirm validate_password now' st' value pw' pw2') = st' /\
    forall u', snd (reset_confirm validate_password now' st' value pw' pw2') <> PasswordWasReset u'.
Proof.
  unfold reset_confirm at 1. intros H.
  destruct (String.eqb (PyStr.strip value) EmptyString || String.eqb (PyStr.strip pw) EmptyString
            || String.eqb (PyStr.strip pw2) EmptyString); [discriminate|].
  destruct (filter (fun t => String.eqb (token t) (PyStr.strip value)) (tokens st))
    as [|t [|t2 rest]] eqn:Hfl; try discriminate.
  destruct (negb (is_valid now t)); [discriminate|].
  destruct (negb (validate_password (PyStr.strip pw))); [discriminate|].
  destruct (negb (String.eqb (PyStr.strip pw) (PyStr.strip pw2))); [discriminate|].
  injection H as <- <-. split.
  - simpl. intros a Ha Hid. apply in_map_iff in Ha as [a0 [<- _]].
    unfold set_password in *. destruct (acc_id a0 =? tok_user t) eqn:E; simpl in *; [reflexivity|].
    apply Nat.eqb_neq in E. congruence.
  - intros now' pw' pw2'. unfold reset_confirm. simpl.
    destruct (String.eqb (PyStr.strip value) EmptyString || String.eqb (PyStr.strip pw') EmptyString
              || String.eqb (PyStr.strip pw2') EmptyString);
      [split; [reflexivity | intros u' [=]]|].
    rewrite filter_map_token, Hfl. simpl.
    unfold use_token. rewrite Nat.eqb_refl. unfold is_valid. simpl.
    split; [reflexivity | intros u' [=]].
Qed.

Lemma reset_confirm_one_shot_witness :
  reset_confirm (fun _ => true) 5%Z
    (mkStore [mkAccount 4 "ann@x.io" true None] [mkResetToken 1 4 "tok" false 99%Z] [1] [])
    "tok" " s3cret " "s3cret"
  = (mkStore [mkAccount 4 "ann@x.io" true (Some "s3cret"%string)] [mkResetToken 1 4 "tok" true 99%Z] [1] [4],
     PasswordWasReset 4) /\
  fst (reset_confirm (fun _ => true) 6%Z
         (mkStore [mkAccount 4 "ann@x.io" true (Some "s3cret"%string)] [mkResetToken 1 4 "tok" true 99%Z] [1] [4])
         "tok" "other" "other")
  = mkStore [mkAccount 4 "ann@x.io" true (Some "s3cret"%string)] [mkResetToken 1 4 "tok" true 99%Z] [1] [4].
Proof.
  assert (H : reset_confirm (fun _ => true) 5%Z
    (mkStore [mkAccount 4 "ann@x.io" true None] [mkResetToken 1 4 "tok" false 99%Z] [1] [])
    "tok" " s3cret " "s3cret"
  = (mkStore [mkAccount 4 "ann@x.io" true (Some "s3cret"%string)] [mkResetToken 1 4 "tok" true 99%Z] [1] [4],
     PasswordWasReset 4)) by reflexivity.
  split; [exact H|].
  exact (proj1 (proj2 (reset_confirm_one_shot _ _ _ _ _ _ _ _ H) 6%Z "other"%string "other"%string)).
Defined.

End PasswordResetFacts.

Module VerificationFacts.
Import Accounts Verification.

Ltac eqb_facts :=
  repeat match goal with
         | H : (_ =? _) = true |- _ => apply Nat.eqb_eq in H
         | H : (_ =? _) = false |- _ => apply Nat.eqb_neq in H
         end.

Lemma find_put_vrequest st q j p :
  v_pk j = q ->
  find_vrequest (put_vrequest st q j) p =
    if q =? p then option_map (fun _ => j) (find_vrequest st p) else find_vrequest st p.
Proof.
  intros Hj. unfold find_vrequest, put_vrequest; simpl.
  induction (vrequests st) as [|r rs IH]; simpl; [destruct (q =? p); reflexivity|].
  destruct (v_pk r =? q) eqn:E1; simpl;
    [rewrite Hj|]; destruct (q =? p) eqn:E2; destruct (v_pk r =? p) eqn:E3; simpl;
    eqb_facts; subst; try congruence; try reflexivity; try exact IH.
  all: rewrite IH; reflexivity.
Qed.

Lemma find_vrequest_pk st p r : find_vrequest st p = Some r -> v_pk r = p.
Proof.
  unfold find_vrequest. intros H. apply find_some in H as [_ H]. apply Nat.eqb_eq. exact H.
Qed.

(** X16: a verification request is decided at most once: an approval or
    rejection goes through only on a pending request, stores the decision
    with the admin, the time and the notes, and from then on every further
    approve or reject call on it fails and writes nothing. *)
Theorem verification_decided_once (approve : bool) (now : Z) (st : Store) (admin : nat)
  (admin_role : Role) (p : nat) (notes : string) (st' : Store) :
  decide approve now st admin admin_role p notes = (st', VOk) ->
  exists r, find_vrequest st p = Some r /\ v_status r = V_PENDING /\
    find_vrequest st' p = Some (mkVRequest p (v_user r) (if approve then APPROVED else REJECTED)
                                  (Some admin) (Some now) notes) /\
    forall approve' now' admin' role' notes',
      fst (decide approve' now' st' admin' role' p notes') = st' /\
      snd (decide approve' now' st' admin' role' p notes') <> VOk.
Proof.
  unfold decide at 1. intros H.
  destruct (admin_or_super admin_role); simpl in H; [|discriminate].
  destruct (find_vrequest st p) as [r|] eqn:Hf; [|discriminate].
  destruct (VStatus_eqb (v_status r) V_PENDING) eqn:Hs; simpl in H; [|discriminate].
  set (r' := mkVRequest (v_pk r) (v_user r) (if approve then APPROVED else REJECTED)
                (Some admin) (Some now) notes) in H.
  injection H as Hst. pose proof (find_vrequest_pk st p r Hf) as Hpk.
  exists r. split; [reflexivity|]. split; [destruct (v_status r); simpl in Hs; congruence|].
  assert (Hv : vrequests st' = vrequests (put_vrequest st p r')) by (rewrite <- Hst; reflexivity).
  assert (Hf' : find_vrequest st' p =
                Some (mkVRequest p (v_user r) (if approve then APPROVED else REJECTED)
                        (Some admin) (Some now) notes)).
  { unfold find_vrequest at 1. rewrite Hv. fold (find_vrequest (put_vrequest st p r') p).
    rewrite find_put_vrequest by exact Hpk. rewrite Nat.eqb_refl, Hf. simpl.
    unfold r'. rewrite Hpk. reflexivity. }
  split; [exact Hf'|].
  intros approve' now' admin' role' notes'. unfold decide. rewrite Hf'.
  destruct (admin_or_super role'); simpl; [|split; [reflexivity | discriminate]].
  destruct approve; simpl; split; (reflexivity || discriminate).
Qed.

Lemma verification_decided_once_witness :
  exists st', decide true 9%Z (mkStore [mkVUser 5 SERVICE_PROVIDER false]
                                 [mkVRequest 1 5 V_PENDING None None EmptyString] [] [])
                7 ADMIN 1 EmptyString = (st', VOk) /\
    snd (decide false 10%Z st' 7 ADMIN 1 EmptyString) <> VOk.
Proof.
  eexists. split; [reflexivity|].
  match goal with |- snd (decide _ _ ?s _ _ _ _) <> _ =>
    assert (H : decide true 9%Z (mkStore [mkVUser 5 SERVICE_PROVIDER false]
                                   [mkVRequest 1 5 V_PENDING None None EmptyString] [] [])
                  7 ADMIN 1 EmptyString = (s, VOk)) by reflexivity end.
  destruct (verification_decided_once _ _ _ _ _ _ _ _ H) as [r [_ [_ [_ Hn]]]].
  exact (proj2 (Hn false 10%Z 7 ADMIN EmptyString)).
Defined.

Definition verify_user (x : VUser) : VUser := mkVUser (vu_id x) (vu_role x) true.

Lemma find_vuser_map (l : list VUser) (v u : nat) :
  find (fun x => Nat.eqb (vu_id x) u)
    (map (fun x => if Nat.eqb (vu_id x) v then mkVUser (vu_id x) (vu_role x) true else x) l) =
  if Nat.eqb u v then option_map verify_user (find (fun x => Nat.eqb (vu_id x) u) l)
  else find (fun x => Nat.eqb (vu_id x) u) l.
Proof.
  induction l as [|x xs IH]; simpl; [destruct (u =? v); reflexivity|].
  destruct (vu_id x =? v) eqn:E1; destruct (vu_id x =? u) eqn:E2; destruct (u =? v) eqn:E3;
    simpl; rewrite ?E2; eqb_facts; subst; try congruence; try reflexivity; exact IH.
Qed.

(** X17: a successful approval or rejection queues one decision mail for the
    request and logs one action by the admin; an approval marks exactly the
    requesting user as verified (no other user changes), after which that
    user's further verification requests are refused; a rejection changes
    no user. *)
Theorem decide_user_effect (approve : bool) (now : Z) (st : Store) (admin : nat)
  (admin_role : Role) (p : nat) (notes : string) (st' : Store) :
  decide approve now st admin admin_role p notes = (st', VOk) ->
  exists r, find_vrequest st p = Some r /\
    decision_mails st' = decision_mails st ++ [p] /\ vlog st' = vlog st ++ [admin] /\
    (forall u, find_vuser st' u =
                 if approve && Nat.eqb u (v_user r)
                 then option_map verify_user (find_vuser st u) else find_vuser st u) /\
    (approve = true -> forall w, find_vuser st' (v_user r) = Some w ->
                       snd (request_verification st' w) = VBad400).
Proof.
  unfold decide. intros H.
  destruct (admin_or_super admin_role); simpl in H; [|discriminate].
  destruct (find_vrequest st p) as [r|] eqn:Hf; [|discriminate].
  destruct (VStatus_eqb (v_status r) V_PENDING) eqn:Hs; simpl in H; [|discriminate].
  injection H as Hst. exists r. split; [reflexivity|].
  split; [rewrite <- Hst; reflexivity|]. split; [rewrite <- Hst; reflexivity|].
  assert (Hu : forall u, find_vuser st' u =
                 if approve && Nat.eqb u (v_user r)
                 then option_map verify_user (find_vuser st u) else find_vuser st u).
  { intros u. unfold find_vuser. rewrite <- Hst; simpl.
    destruct approve; simpl; [apply find_vuser_map|reflexivity]. }
  split; [exact (fun u => Hu u)|].
  intros Ha w Hw. subst approve. rewrite (Hu (v_user r)), Nat.eqb_refl in Hw. simpl in Hw.
  destruct (find_vuser st (v_user r)) as [x|]; simpl in Hw; [|discriminate].
  injection Hw as <-. unfold request_verification, verify_user; simpl.
  destruct (vu_role x); reflexivity.
Qed.

Lemma decide_user_effect_witness :
  exists st', decide true 9%Z (mkStore [mkVUser 5 SERVICE_PROVIDER false; mkVUser 6 BUYER false]
                                 [mkVRequest 1 5 V_PENDING None None EmptyString] [] [])
                7 ADMIN 1 EmptyString = (st', VOk) /\
    find_vuser st' 5 = Some (mkVUser 5 SERVICE_PROVIDER true) /\
    find_vuser st' 6 = Some (mkVUser 6 BUYER false).
Proof.
  eexists. split; [reflexivity|].
  match goal with |- find_vuser ?s _ = _ /\ _ =>
    assert (H : decide true 9%Z (mkStore [mkVUser 5 SERVICE_PROVIDER false; mkVUser 6 BUYER false]
                                   [mkVRequest 1 5 V_PENDING None None EmptyString] [] [])
                  7 ADMIN 1 EmptyString = (s, VOk)) by reflexivity end.
  destruct (decide_user_effect _ _ _ _ _ _ _ _ H) as [r [Hr [_ [_ [Hu _]]]]].
  injection Hr as <-. rewrite (Hu 5), (Hu 6). split; reflexivity.
Defined.

Lemma next_vpk_fresh st : find_vrequest st (next_vpk st) = None.
Proof.
  unfold find_vrequest, next_vpk.
  assert (Hle : forall x, In x (vrequests st) -> v_pk x <= fold_right Nat.max 0 (map v_pk (vrequests st))).
  { induction (vrequests st) as [|y ys IH]; simpl; [tauto|].
    intros x [<-|Hx]; [lia | specialize (IH x Hx); lia]. }
  destruct (find _ (vrequests st)) as [x|] eqn:E; [|reflexivity].
  apply find_some in E as [Hin Hx]. apply Nat.eqb_eq in Hx. specialize (Hle x Hin). lia.
Qed.

(** X18: a verification request is accepted exactly from an unverified
    service provider; it then stores a new pending request under a fresh id
    and changes no user, with no check for a request already pending: the
    user's count of pending requests grows by one on every accepted call.
    A refused request changes nothing. *)
Theorem request_verification_spec (st : Store) (who : VUser) :
  ((exists p, snd (request_verification st who) = VCreated p) <->
     vu_role who = SERVICE_PROVIDER /\ vu_verified who = false) /\
  (forall st' p, request_verification st who = (st', VCreated p) ->
     find_vrequest st p = None /\
     find_vrequest st' p = Some (mkVRequest p (vu_id who) V_PENDING None None EmptyString) /\
     pending_requests st' (vu_id who) = S (pending_requests st (vu_id who)) /\
     vusers st' = vusers st) /\
  (forall st', request_verification st who = (st', VBad400) -> st' = st).
Proof.
  unfold request_verification.
  destruct (vu_role who) eqn:Er; simpl;
    try (split; [split; [intros [q Hq]; discriminate | intros [Hc _]; discriminate]|];
         split; [intros st' q Hq; discriminate | intros st' Hq; injection Hq as <-; reflexivity]).
  destruct (vu_verified who) eqn:Ev; simpl.
  - split; [split; [intros [q Hq]; discriminate | intros [_ Hc]; discriminate]|].
    split; [intros st' q Hq; discriminate | intros st' Hq; injection Hq as <-; reflexivity].
  - split; [split; [intros _; split; reflexivity | intros _; eexists; reflexivity]|].
    split; [|intros st' Hq; discriminate].
    intros st' q Hq. injection Hq as <- <-.
    split; [apply next_vpk_fresh|].
    split.
    + pose proof (next_vpk_fresh st) as Hfr. unfold find_vrequest in *; simpl.
      induction (vrequests st) as [|x xs IH]; simpl in *; [rewrite Nat.eqb_refl; reflexivity|].
      destruct (v_pk x =? next_vpk st); [discriminate | exact (IH Hfr)].
    + split; [|reflexivity].
      unfold pending_requests; simpl. rewrite filter_app, length_app. simpl.
      rewrite Nat.eqb_refl. simpl. lia.
Qed.

Lemma request_verification_spec_witness :
  let who := mkVUser 5 SERVICE_PROVIDER false in
  let st0 := mkStore [who] [] [] [] in
  exists st1 st2 p1 p2,
    request_verification st0 who = (st1, VCreated p1) /\
    request_verification st1 who = (st2, VCreated p2) /\
    pending_requests st2 5 = 2.
Proof.
  intros who st0.
  set (st1 := fst (request_verification st0 who)).
  set (st2 := fst (request_verification st1 who)).
  exists st1, st2, 1, 2. split; [reflexivity|].
  assert (H : request_verification st1 who = (st2, VCreated 2)) by reflexivity.
  split; [exact H|].
  destruct (proj1 (proj2 (request_verification_spec st1 who)) st2 2 H) as [_ [_ [Hc _]]].
  change (pending_requests st2 (vu_id who) = 2). rewrite Hc. reflexivity.
Defined.

End VerificationFacts.

Module ReportBulkFacts.
Import AdminPanel ReportBulk.

Local Open Scope string_scope.

(** Where a bulk action leaves row [x] after it has gone through the rows
    [L]: every row sharing a key with one of [L] is reviewed. *)
Definition bulk_row (admin : nat) (now : Z) (notes : string) (L : list RepRow) (x : RepRow) : RepRow :=
  if existsb (fun r => Nat.eqb (rpk r) (rpk x)) L
  then mkRepRow (rpk x) (mkReport REVIEWED (Some admin) (Some now) notes) else x.

Lemma bulk_fold t now admin notes L : forall st c,
  fold_left (bulk_one t now admin notes) L (st, c) =
  (mkStore (map (bulk_row admin now notes L) (reports st))
     (app (action_log st) (repeat (mkLog admin content_reviewed) (List.length L))), c + List.length L).
Proof.
  induction L as [|r L IH]; intros st c; simpl.
  - rewrite app_nil_r, Nat.add_0_r. destruct st as [rs lg]; simpl. f_equal. f_equal.
    unfold bulk_row; simpl. symmetry. apply map_id.
  - rewrite IH. simpl. f_equal; [f_equal|lia].
    + rewrite map_map. apply map_ext. intros x. unfold bulk_row; simpl.
      destruct (Nat.eqb (rpk x) (rpk r)) eqn:E.
      * apply Nat.eqb_eq in E. rewrite E, Nat.eqb_refl. simpl.
        destruct (existsb _ L); reflexivity.
      * rewrite Nat.eqb_sym, E. reflexivity.
    + rewrite <- app_assoc. reflexivity.
Qed.

Lemma existsb_filter_nodup (P : RepRow -> bool) rows x :
  NoDup (map rpk rows) -> In x rows ->
  existsb (fun r => Nat.eqb (rpk r) (rpk x)) (filter P rows) = P x.
Proof.
  induction rows as [|a rows IH]; simpl; [tauto|].
  intros Hnd Hin. inversion Hnd as [|? ? Hna Hnd']; subst.
  destruct Hin as [<-|Hin].
  - destruct (P a) eqn:Ep; simpl; [rewrite Nat.eqb_refl; reflexivity|].
    apply Bool.not_true_iff_false. intros He. apply existsb_exists in He as [y [Hy Hyx]].
    apply filter_In in Hy as [Hy _]. apply Nat.eqb_eq in Hyx.
    apply Hna. rewrite <- Hyx. apply in_map. exact Hy.
  - assert (Hne : (Nat.eqb (rpk a) (rpk x)) = false).
    { apply Nat.eqb_neq. intros He. apply Hna. rewrite He. apply in_map. exact Hin. }
    destruct (P a); simpl; [rewrite Hne; simpl|]; apply IH; assumption.
Qed.

Lemma bulk_rows_nodup admin now notes (P : RepRow -> bool) rows :
  NoDup (map rpk rows) ->
  map (bulk_row admin now notes (filter P rows)) rows =
  map (fun x => if P x then mkRepRow (rpk x) (mkReport REVIEWED (Some admin) (Some now) notes)
                else x) rows.
Proof.
  intros Hnd. apply map_ext_in. intros x Hx. unfold bulk_row.
  rewrite existsb_filter_nodup by assumption. reflexivity.
Qed.

Lemma filter_none {A} (P : A -> bool) (l : list A) :
  (forall x, In x l -> P x = false) -> filter P l = [].
Proof.
  induction l as [|a l IH]; simpl; intros H; [reflexivity|].
  rewrite (H a (or_introl eq_refl)). apply IH. intros x Hx. apply H. right. exact Hx.
Qed.

Lemma length_filter_map_same {A} (P : A -> bool) (f : A -> A) (l : list A) :
  (forall x, In x l -> P (f x) = P x) ->
  List.length (filter P (map f l)) = List.length (filter P l).
Proof.
  induction l as [|a l IH]; simpl; intros H; [reflexivity|].
  rewrite (H a (or_introl eq_refl)).
  assert (IH' : List.length (filter P (map f l)) = List.length (filter P l))
    by (apply IH; intros x Hx; apply H; right; exact Hx).
  destruct (P a); simpl; rewrite IH'; reflexivity.
Qed.

(** X19: with distinct report ids, "mark as resolved" counts the selected
    pending reports and gives each of them status reviewed (never
    resolved), the admin, the time and the bulk note, leaves every other
    report as it was and logs one content review per report; a repeated
    run on the result finds nothing to do and changes nothing. *)
Theorem mark_as_resolved_reviews (now : Z) (st : Store) (admin : nat) (sel : list nat)
  (st' : Store) (n : nat) :
  NoDup (map rpk (reports st)) ->
  mark_as_resolved now st admin sel = (st', n) ->
  n = List.length (filter (fun r => is_selected sel r &&
                     match rstatus (rep r) with R_PENDING => true | _ => false end) (reports st)) /\
  reports st' =
    map (fun x => if is_selected sel x &&
                     match rstatus (rep x) with R_PENDING => true | _ => false end
                  then mkRepRow (rpk x) (mkReport REVIEWED (Some admin) (Some now)
                                           "Bulk action: marked as resolved via admin")
                  else x) (reports st) /\
  action_log st' = app (action_log st) (repeat (mkLog admin content_reviewed) n) /\
  (forall x, In x (reports st') -> rstatus (rep x) = RESOLVED -> In x (reports st)) /\
  (forall now' admin', mark_as_resolved now' st' admin' sel = (st', 0)).
Proof.
  intros Hnd H. unfold mark_as_resolved in H. rewrite bulk_fold in H.
  injection H as Hst Hn. rewrite bulk_rows_nodup in Hst by exact Hnd.
  split; [rewrite <- Hn; reflexivity|].
  split; [rewrite <- Hst; reflexivity|].
  split; [rewrite <- Hst, <- Hn; reflexivity|].
  split.
  - intros x Hx Hr. rewrite <- Hst in Hx. simpl in Hx. apply in_map_iff in Hx as [y [<- Hy]].
    destruct (_ && _) eqn:E in Hr; [discriminate Hr|].
    rewrite E. exact Hy.
  - intros now' admin'. unfold mark_as_resolved.
    rewrite filter_none; [reflexivity|].
    intros x Hx. rewrite <- Hst in Hx. simpl in Hx. apply in_map_iff in Hx as [y [<- Hy]].
    destruct (is_selected sel y && _) eqn:E; simpl; [apply andb_false_r|exact E].
Qed.

Lemma mark_as_resolved_reviews_witness :
  let st0 := mkStore [mkRepRow 1 (mkReport R_PENDING None None EmptyString);
                      mkRepRow 2 (mkReport R_PENDING None None EmptyString)] [] in
  exists st', NoDup (map rpk (reports st0)) /\
    mark_as_resolved 5%Z st0 7 [1] = (st', 1) /\ mark_as_resolved 6%Z st' 7 [1] = (st', 0).
Proof.
  intros st0. set (st' := fst (mark_as_resolved 5%Z st0 7 [1])).
  assert (Hnd : NoDup (map rpk (reports st0))).
  { simpl. constructor; [simpl; intros [H|H]; [discriminate H|exact H]|].
    constructor; [intros []|constructor]. }
  assert (H : mark_as_resolved 5%Z st0 7 [1] = (st', 1)) by reflexivity.
  exists st'. split; [exact Hnd|]. split; [exact H|].
  destruct (mark_as_resolved_reviews _ _ _ _ _ _ Hnd H) as [_ [_ [_ [_ Hr]]]].
  apply Hr.
Defined.

(** X20: with distinct report ids, "dismiss" gives every selected report
    that is neither dismissed nor resolved the status reviewed (never
    dismissed) with the admin, the time and the bulk note, counts them and
    logs one content review each; since reviewed reports are not excluded,
    running it again on the result selects the same reports, returns the
    same count and logs them all again. *)
Theorem mark_as_dismissed_repeats (now : Z) (st : Store) (admin : nat) (sel : list nat)
  (st' : Store) (n : nat) :
  NoDup (map rpk (reports st)) ->
  mark_as_dismissed now st admin sel = (st', n) ->
  n = List.length (filter (fun r => is_selected sel r &&
                     match rstatus (rep r) with DISMISSED | RESOLVED => false | _ => true end)
                     (reports st)) /\
  reports st' =
    map (fun x => if is_selected sel x &&
                     match rstatus (rep x) with DISMISSED | RESOLVED => false | _ => true end
                  then mkRepRow (rpk x) (mkReport REVIEWED (Some admin) (Some now)
                                           "Bulk action: dismissed as invalid via admin")
                  else x) (reports st) /\
  action_log st' = app (action_log st) (repeat (mkLog admin content_reviewed) n) /\
  (forall x, In x (reports st') -> rstatus (rep x) = DISMISSED -> In x (reports st)) /\
  (forall now', exists st'', mark_as_dismissed now' st' admin sel = (st'', n) /\
     action_log st'' = app (action_log st') (repeat (mkLog admin content_reviewed) n)).
Proof.
  intros Hnd H. unfold mark_as_dismissed in H. rewrite bulk_fold in H.
  injection H as Hst Hn. rewrite bulk_rows_nodup in Hst by exact Hnd.
  split; [rewrite <- Hn; reflexivity|].
  split; [rewrite <- Hst; reflexivity|].
  split; [rewrite <- Hst, <- Hn; reflexivity|].
  split.
  - intros x Hx Hr. rewrite <- Hst in Hx. simpl in Hx. apply in_map_iff in Hx as [y [<- Hy]].
    destruct (_ && _) eqn:E in Hr; [discriminate Hr|].
    rewrite E. exact Hy.
  - intros now'. unfold mark_as_dismissed. rewrite bulk_fold.
    assert (Hlen : List.length (filter (fun r => is_selected sel r &&
                     match rstatus (rep r) with DISMISSED | RESOLVED => false | _ => true end)
                     (reports st')) = n).
    { rewrite <- Hst, <- Hn. simpl. apply length_filter_map_same.
      intros y _. destruct (is_selected sel y && _) eqn:E; simpl; [|exact E].
      unfold is_selected in *; simpl. apply andb_true_iff in E as [E _]. rewrite E. reflexivity. }
    rewrite Hlen. eexists. split; [reflexivity|]. reflexivity.
Qed.

Lemma mark_as_dismissed_repeats_witness :
  let st0 := mkStore [mkRepRow 1 (mkReport R_PENDING None None EmptyString);
                      mkRepRow 2 (mkReport RESOLVED None None EmptyString)] [] in
  exists st' st'', NoDup (map rpk (reports st0)) /\
    mark_as_dismissed 5%Z st0 7 [1; 2] = (st', 1) /\
    mark_as_dismissed 6%Z st' 7 [1; 2] = (st'', 1).
Proof.
  intros st0. set (st' := fst (mark_as_dismissed 5%Z st0 7 [1; 2])).
  assert (Hnd : NoDup (map rpk (reports st0))).
  { simpl. constructor; [simpl; intros [H|H]; [discriminate H|exact H]|].
    constructor; [intros []|constructor]. }
  assert (H : mark_as_dismissed 5%Z st0 7 [1; 2] = (st', 1)) by reflexivity.
  destruct (mark_as_dismissed_repeats _ _ _ _ _ _ Hnd H) as [_ [_ [_ [_ Hr]]]].
  destruct (Hr 6%Z) as [st'' [H2 _]].
  exists st', st''. split; [exact Hnd|]. split; [exact H|exact H2].
Defined.

End ReportBulkFacts.
